(** * A shallow embedding of the CRM service (crm/models.py, crm/filters.py,
      crm/schema.py)

    The three source files are Django/graphene code.  The embedding keeps
    the shape of the source:

    - [Py]      Python values the code handles: strings as sequences of code
                points, [re.match] on the patterns of the phone check,
                datetimes, exceptions;
    - [Models]  the three tables of models.py and the many-to-many table,
                the actions in which the ORM calls run (state of the
                store, faults, exceptions, [try]/[except],
                [transaction.atomic]), and the model methods
                ([Order.save], [Order.calculate_total],
                [Order.update_total]);
    - [Filters] the filter sets of filters.py for products and orders;
    - [Schema]  the four mutations of schema.py.

    Two tables that the code consults and that are not part of the
    repository are parameters: which code points [\d] accepts (the Unicode
    database of the interpreter) and how the store folds case for
    [icontains]. *)

From Stdlib Require Import ZArith NArith List Bool Lia String Ascii QArith.
From Stdlib Require Import DecimalString Btauto.
Import ListNotations.

Set Implicit Arguments.

Local Open Scope Z_scope.

(* ===================================================================== *)
(** * Python values                                                       *)
(* ===================================================================== *)

Module Py.

(** A Python [str] is a sequence of Unicode code points. *)
Definition char := N.
Definition str := list char.

(** A literal of the source, which is ASCII throughout. *)
Definition lit (s : string) : str :=
  List.map N_of_ascii (list_ascii_of_string s).

Definition str_eqb (a b : str) : bool :=
  if list_eq_dec N.eq_dec a b then true else false.

(** [str(n)] for a non-negative integer. *)
Definition str_of_nat (n : nat) : str :=
  lit (NilZero.string_of_uint (Nat.to_uint n)).

(** Truthiness of an optional string: [None] and the empty string are
    falsy. *)
Definition truthy_str (s : option str) : bool :=
  match s with
  | None => false
  | Some [] => false
  | Some (_ :: _) => true
  end.

(** ** Regular expressions, as [re.match] runs them

    The fragment of the pattern language that the source uses: literals,
    [\d], concatenation, alternation, bounded repetition [r{lo,hi}], and
    the anchors [^] and [$].  The matcher is the backtracking one, in
    continuation-passing style: [matchk r pos s k] tries [r] at the head of
    [s], [pos] characters into the subject, and hands every way of matching
    to [k], the longest repetition first. *)

Inductive regex : Type :=
| Bol                                   (* ^ *)
| Eol                                   (* $ *)
| Chr (c : char)                        (* a literal character *)
| Digit                                 (* \d *)
| Seq (r1 r2 : regex)
| Alt (r1 r2 : regex)
| Rep (r : regex) (lo hi : nat).        (* r{lo,hi} *)

Definition kont := nat -> str -> bool.

Section Matcher.

(** [\d] on a [str] pattern accepts every code point that the Unicode
    database classes as a decimal digit. *)
Variable isdecimal : char -> bool.

(** At most [n] further iterations of [m], greedy. *)
Fixpoint rep_upto (m : nat -> str -> kont -> bool) (n : nat)
         (pos : nat) (s : str) (k : kont) : bool :=
  match n with
  | O => k pos s
  | S n' => m pos s (fun p t => rep_upto m n' p t k) || k pos s
  end.

(** Exactly [lo] iterations of [m], then at most [extra] more. *)
Fixpoint rep_from (m : nat -> str -> kont -> bool) (lo extra : nat)
         (pos : nat) (s : str) (k : kont) : bool :=
  match lo with
  | O => rep_upto m extra pos s k
  | S lo' => m pos s (fun p t => rep_from m lo' extra p t k)
  end.

(** Without [re.MULTILINE], [$] holds at the end of the subject and just
    before a newline that ends it. *)
Definition at_eol (s : str) : bool :=
  match s with
  | [] => true
  | [c] => N.eqb c 10
  | _ => false
  end.

Fixpoint matchk (r : regex) (pos : nat) (s : str) (k : kont) : bool :=
  match r with
  | Bol => Nat.eqb pos 0 && k pos s
  | Eol => at_eol s && k pos s
  | Chr c =>
      match s with
      | x :: t => N.eqb x c && k (S pos) t
      | [] => false
      end
  | Digit =>
      match s with
      | x :: t => isdecimal x && k (S pos) t
      | [] => false
      end
  | Seq r1 r2 => matchk r1 pos s (fun p t => matchk r2 p t k)
  | Alt r1 r2 => matchk r1 pos s k || matchk r2 pos s k
  | Rep r0 lo hi => rep_from (matchk r0) lo (hi - lo) pos s k
  end.

(** [re.match(pattern, s)] is truthy when the pattern matches at the
    start of [s]; what follows the match is not looked at. *)
Definition re_match (pattern : regex) (s : str) : bool :=
  matchk pattern 0 s (fun _ _ => true).

End Matcher.

(** The ASCII digits, for concrete runs; every decimal-digit table
    contains them. *)
Definition ascii_digit (c : char) : bool := (N.leb 48 c && N.leb c 57)%N.

(** ** Datetimes *)

Record datetime : Type := mkDatetime {
  year : Z;
  month : Z;
  day : Z;
  micros : Z            (* time of day, in microseconds *)
}.

Definition dt_eqb (a b : datetime) : bool :=
  Z.eqb (year a) (year b) && Z.eqb (month a) (month b)
  && Z.eqb (day a) (day b) && Z.eqb (micros a) (micros b).

(** Chronological order: year, month, day, time of day. *)
Definition dt_ltb (a b : datetime) : bool :=
  Z.ltb (year a) (year b)
  || (Z.eqb (year a) (year b)
      && (Z.ltb (month a) (month b)
          || (Z.eqb (month a) (month b)
              && (Z.ltb (day a) (day b)
                  || (Z.eqb (day a) (day b)
                      && Z.ltb (micros a) (micros b)))))).

Definition dt_leb (a b : datetime) : bool := dt_ltb a b || dt_eqb a b.

(** ** Exceptions

    All of them are subclasses of [Exception], which is what the handlers
    of schema.py catch. *)

Inductive Exception : Type :=
| DoesNotExist                  (* Model.DoesNotExist *)
| MultipleObjectsReturned
| ValueError                    (* a value that is no number where one is due *)
| IntegrityError                (* a constraint of the store refused a write *)
| ValidationError               (* a value that the field refuses *)
| DatabaseError                 (* any other fault of the store *)
| TransactionManagementError.   (* a query in a transaction marked for rollback *)

Definition str_of_exception (e : Exception) : str :=
  match e with
  | DoesNotExist => lit "matching query does not exist."
  | MultipleObjectsReturned => lit "get() returned more than one row"
  | ValueError => lit "Field 'id' expected a number"
  | IntegrityError => lit "UNIQUE constraint failed"
  | ValidationError => lit "value must be a decimal number"
  | DatabaseError => lit "database error"
  | TransactionManagementError =>
      lit "An error occurred in the current transaction."
  end.

Inductive Outcome (A : Type) : Type :=
| Return (a : A)
| Raise (e : Exception).

Arguments Return {A} a.
Arguments Raise {A} e.

End Py.

(* ===================================================================== *)
(** * crm/models.py and the store                                         *)
(* ===================================================================== *)

Module Models.
Import Py.

(** A [DecimalField(max_digits=10, decimal_places=2)] holds an exact
    fixed-point number: it is kept as its number of hundredths. *)
Definition Decimal := Z.

(** What reaches the ORM where a primary key is due: [int()] of it is a
    number, or raises. *)
Inductive ID : Type :=
| IdInt (n : Z)
| IdMalformed.

Definition to_pk (i : ID) : Outcome Z :=
  match i with
  | IdInt n => Return n
  | IdMalformed => Raise ValueError
  end.

Record Customer : Type := mkCustomer {
  c_id : Z;
  c_name : str;
  c_email : str;
  c_phone : option str;
  c_created_at : datetime;
  c_updated_at : datetime
}.

Record Product : Type := mkProduct {
  p_id : Z;
  p_name : str;
  p_price : Decimal;
  p_stock : Z;
  p_created_at : datetime;
  p_updated_at : datetime
}.

(** An [Order] instance.  [o_pk] is [None] until the first save, and so are
    the two timestamps that only the save assigns. *)
Record Order : Type := mkOrder {
  o_pk : option Z;
  o_customer_id : Z;
  o_total_amount : Decimal;
  o_order_date : datetime;
  o_created_at : option datetime;
  o_updated_at : option datetime
}.

(** The store: one table per model and the table of the many-to-many
    field [Order.products], whose rows are pairs (order id, product id).
    [Meta.ordering] only fixes the order in which a query lists its rows;
    rows are listed here in the order of the table. *)
Record DB : Type := mkDB {
  customers : list Customer;
  products : list Product;
  orders : list Order;
  order_products : list (Z * Z)
}.

Definition empty_db : DB := mkDB [] [] [] [].

(** ** The state of a request

    Besides the store: the faults to come (one entry for each statement
    sent to the store, [true] for a statement that the store fails; none
    left means no fault), the clock and how often it was read, and the two
    flags of Django's connection that [transaction.atomic] works with. *)
Record World : Type := mkWorld {
  db : DB;
  faults : list bool;
  clock : nat -> datetime;
  tick : nat;
  in_atomic : bool;
  needs_rollback : bool
}.

Definition set_db (d : DB) (w : World) : World :=
  mkWorld d (faults w) (clock w) (tick w) (in_atomic w) (needs_rollback w).
Definition set_faults (f : list bool) (w : World) : World :=
  mkWorld (db w) f (clock w) (tick w) (in_atomic w) (needs_rollback w).
Definition set_tick (n : nat) (w : World) : World :=
  mkWorld (db w) (faults w) (clock w) n (in_atomic w) (needs_rollback w).
Definition set_atomic (a r : bool) (w : World) : World :=
  mkWorld (db w) (faults w) (clock w) (tick w) a r.

(** A request that starts on store [d] with nothing going wrong. *)
Definition calm (d : DB) (c : nat -> datetime) : World :=
  mkWorld d [] c 0 false false.

(** ** Actions: code that reads and writes the world and may raise

    The world that an action leaves behind is kept when it raises, as the
    effects of Python code are. *)
Definition Action (A : Type) : Type := World -> Outcome A * World.

Definition ret {A} (a : A) : Action A := fun w => (Return a, w).

Definition raise {A} (e : Exception) : Action A := fun w => (Raise e, w).

Definition bind {A B} (c : Action A) (f : A -> Action B) : Action B :=
  fun w =>
    match c w with
    | (Return a, w') => f a w'
    | (Raise e, w') => (Raise e, w')
    end.

Definition lift {A} (o : Outcome A) : Action A := fun w => (o, w).

(** [try: c  except Exception as e: h e] *)
Definition try_except {A} (c : Action A) (h : Exception -> Action A)
  : Action A :=
  fun w =>
    match c w with
    | (Return a, w') => (Return a, w')
    | (Raise e, w') => h e w'
    end.

(** [try: c  except Model.DoesNotExist: h] lets every other exception pass. *)
Definition except_DoesNotExist {A} (c : Action A) (h : Action A) : Action A :=
  fun w =>
    match c w with
    | (Raise DoesNotExist, w') => h w'
    | r => r
    end.

Declare Scope action_scope.
Delimit Scope action_scope with action.
Notation "x <- c ;; k" := (bind c (fun x => k))
  (at level 100, c at next level, right associativity) : action_scope.
Notation "c ;;; k" := (bind c (fun _ => k))
  (at level 100, right associativity) : action_scope.
Local Open Scope action_scope.

(** [timezone.now()] / [datetime.now()] *)
Definition now : Action datetime :=
  fun w => (Return (clock w (tick w)), set_tick (S (tick w)) w).

Definition mark_for_rollback (write : bool) (w : World) : World :=
  if write && in_atomic w then set_atomic (in_atomic w) true w else w.

(** One statement sent to the store.  Inside a transaction that is marked
    for rollback Django refuses to send it.  Otherwise the store fails it
    or runs it; a failed write inside a transaction marks the transaction
    for rollback (Django's [mark_for_rollback_on_error]).  A statement that
    raises leaves the tables as they were. *)
Definition statement {A} (write : bool) (f : DB -> Outcome A * DB)
  : Action A :=
  fun w =>
    if in_atomic w && needs_rollback w
    then (Raise TransactionManagementError, w)
    else
      let w1 := set_faults (tl (faults w)) w in
      if hd false (faults w)
      then (Raise DatabaseError, mark_for_rollback write w1)
      else
        match f (db w1) with
        | (Return a, d) => (Return a, set_db d w1)
        | (Raise e, _) => (Raise e, mark_for_rollback write w1)
        end.

Definition read {A} (f : DB -> Outcome A) : Action A :=
  statement false (fun d => (f d, d)).

(** [with transaction.atomic(): body] at the outermost level.  On an
    exception the transaction is rolled back and the exception goes on.  On
    a normal exit it is committed, unless it was marked for rollback, in
    which case it is rolled back without a word; a commit that the store
    fails is rolled back and raises. *)
Definition atomic {A} (body : Action A) : Action A :=
  fun w =>
    let snapshot := db w in
    match body (set_atomic true false w) with
    | (Raise e, w') => (Raise e, set_atomic false false (set_db snapshot w'))
    | (Return a, w') =>
        if needs_rollback w'
        then (Return a, set_atomic false false (set_db snapshot w'))
        else
          let w1 := set_faults (tl (faults w')) w' in
          if hd false (faults w')
          then (Raise DatabaseError, set_atomic false false (set_db snapshot w1))
          else (Return a, set_atomic false false w1)
    end.

(** The primary key that the store gives to a new row: one that no row of
    the table has. *)
Definition next_pk (used : list Z) : Z := 1 + fold_right Z.max 0 used.

Definition mem (x : Z) (l : list Z) : bool := existsb (Z.eqb x) l.

Fixpoint dedup (l : list Z) : list Z :=
  match l with
  | [] => []
  | x :: t => if mem x t then dedup t else x :: dedup t
  end.

(** ** Customer *)

(** [Customer.objects.filter(email=e).exists()] *)
Definition Customer_email_exists (e : str) : Action bool :=
  read (fun d => Return (existsb (fun c => str_eqb (c_email c) e) (customers d))).

(** [Customer.objects.create(name=, email=, phone=)]: both timestamps are
    set by the save; [email] is [unique]. *)
Definition Customer_create (name email : str) (phone : option str)
  : Action Customer :=
  t <- now ;;
  statement true (fun d =>
    if existsb (fun c => str_eqb (c_email c) email) (customers d)
    then (Raise IntegrityError, d)
    else
      let c := mkCustomer (next_pk (List.map c_id (customers d)))
                          name email phone t t in
      (Return c, mkDB (customers d ++ [c]) (products d) (orders d)
                      (order_products d))).

(** [Model.objects.get(id=i)] on a table *)
Definition get_by_id {R} (pk : R -> Z) (rows : list R) (k : Z) : Outcome R :=
  match filter (fun r => Z.eqb (pk r) k) rows with
  | [] => Raise DoesNotExist
  | [r] => Return r
  | _ => Raise MultipleObjectsReturned
  end.

Definition Customer_get (i : ID) : Action Customer :=
  k <- lift (to_pk i) ;;
  read (fun d => get_by_id c_id (customers d) k).

(** ** Product *)

(** [Product.objects.create(name=, price=, stock=)] *)
Definition Product_create (name : str) (price : Decimal) (stock : Z)
  : Action Product :=
  t <- now ;;
  statement true (fun d =>
    let p := mkProduct (next_pk (List.map p_id (products d)))
                       name price stock t t in
    (Return p, mkDB (customers d) (products d ++ [p]) (orders d)
                    (order_products d))).

(** The values of an [id__in] lookup: [None] is dropped, anything that is
    no number raises when the lookup is built. *)
Fixpoint prep_id_in (ids : list (option ID)) : Outcome (list Z) :=
  match ids with
  | [] => Return []
  | None :: t => prep_id_in t
  | Some i :: t =>
      match to_pk i with
      | Raise e => Raise e
      | Return k =>
          match prep_id_in t with
          | Raise e => Raise e
          | Return ks => Return (k :: ks)
          end
      end
  end.

(** The rows of [Product.objects.filter(id__in=ks)] *)
Definition Product_id_in (ks : list Z) (d : DB) : list Product :=
  filter (fun p => mem (p_id p) ks) (products d).

(** ** Order *)

(** [not self.pk] *)
Definition not_pk (pk : option Z) : bool :=
  match pk with
  | None => true
  | Some k => Z.eqb k 0
  end.

Definition has_pk (k : Z) (o : Order) : bool :=
  match o_pk o with
  | Some j => Z.eqb j k
  | None => false
  end.

Definition order_ids (d : DB) : list Z :=
  flat_map (fun o => match o_pk o with Some k => [k] | None => [] end)
           (orders d).

(** The row that an INSERT of [self] writes at time [t] under primary key
    [k]: [order_date] and [created_at] are [auto_now_add] and [updated_at]
    is [auto_now], so all three are set to [t], whatever the instance
    holds. *)
Definition inserted (self : Order) (k : Z) (t : datetime) : Order :=
  mkOrder (Some k) (o_customer_id self) (o_total_amount self)
          t (Some t) (Some t).

(** The row that an UPDATE of [self] writes at time [t]: only [updated_at]
    is [auto_now]. *)
Definition updated (self : Order) (t : datetime) : Order :=
  mkOrder (o_pk self) (o_customer_id self) (o_total_amount self)
          (o_order_date self) (o_created_at self) (Some t).

Definition put_orders (os : list Order) (d : DB) : DB :=
  mkDB (customers d) (products d) os (order_products d).

(** [models.Model.save] for an [Order]: an instance without a primary key
    is inserted; one with a primary key updates its row, and is inserted if
    there is no such row.  The instance takes the values written.  The
    clock is read once for the save. *)
Definition Model_save (force_insert : bool) (self : Order) : Action Order :=
  t <- now ;;
  statement true (fun d =>
    match o_pk self with
    | None =>
        let row := inserted self (next_pk (order_ids d)) t in
        (Return row, put_orders (orders d ++ [row]) d)
    | Some k =>
        if existsb (has_pk k) (orders d)
        then
          if force_insert then (Raise IntegrityError, d)
          else
            let row := updated self t in
            (Return row,
             put_orders (List.map (fun o => if has_pk k o then row else o)
                                  (orders d)) d)
        else
          let row := inserted self k t in
          (Return row, put_orders (orders d ++ [row]) d)
    end).

(** models.py, [Order.save]:
<<
    if not self.pk:
        self.total_amount = Decimal('0.00')
    super().save(...)
>> *)
Definition Order_save (force_insert : bool) (self : Order) : Action Order :=
  let self :=
    if not_pk (o_pk self)
    then mkOrder (o_pk self) (o_customer_id self) 0
                 (o_order_date self) (o_created_at self) (o_updated_at self)
    else self in
  Model_save force_insert self.

(** [Order.objects.create(customer=, total_amount=, order_date=)] builds
    the instance and saves it with [force_insert=True]. *)
Definition Order_objects_create (customer : Customer) (total_amount : Decimal)
           (order_date : datetime) : Action Order :=
  Order_save true
    (mkOrder None (c_id customer) total_amount order_date None None).

(** The rows of [order.products.all()]: the products joined to the order [k]
    through the many-to-many table. *)
Definition products_of (k : Z) (d : DB) : list Product :=
  flat_map (fun op =>
              if Z.eqb (fst op) k
              then filter (fun p => Z.eqb (p_id p) (snd op)) (products d)
              else [])
           (order_products d).

Definition linked (k : Z) (d : DB) : list Z :=
  List.map snd (filter (fun op => Z.eqb (fst op) k) (order_products d)).

(** The tables after [order.products.set(objs)] for the order [k]: the
    products linked now and not among [objs] are unlinked, and those of
    [objs] that are not linked yet are linked, each once. *)
Definition set_products (k : Z) (objs : list Product) (d : DB) : DB :=
  let old_ids := List.map p_id (products_of k d) in
  let new_ids := List.map p_id objs in
  let removed := filter (fun q => negb (mem q new_ids)) old_ids in
  let kept :=
    filter (fun op => negb (Z.eqb (fst op) k && mem (snd op) removed))
           (order_products d) in
  let d1 := mkDB (customers d) (products d) (orders d) kept in
  let missing := dedup (filter (fun q => negb (mem q (linked k d1))) new_ids) in
  mkDB (customers d) (products d) (orders d)
       (kept ++ List.map (fun q => (k, q)) missing).

(** [order.products.set(objs)]; an instance that was never saved has no
    many-to-many relations. *)
Definition Order_products_set (self : Order) (objs : list Product)
  : Action unit :=
  match o_pk self with
  | None => raise ValueError
  | Some k => statement true (fun d => (Return tt, set_products k objs d))
  end.

(** [order.products.all()], evaluated *)
Definition Order_products_all (self : Order) : Action (list Product) :=
  match o_pk self with
  | None => raise ValueError
  | Some k => read (fun d => Return (products_of k d))
  end.

(** [Product.objects.get(id=i)] *)
Definition Product_get (i : ID) : Action Product :=
  k <- lift (to_pk i) ;;
  read (fun d => get_by_id p_id (products d) k).

(** [Order.objects.get(id=i)] *)
Definition Order_get (i : ID) : Action Order :=
  k <- lift (to_pk i) ;;
  read (fun d =>
    match filter (has_pk k) (orders d) with
    | [] => Raise DoesNotExist
    | [o] => Return o
    | _ => Raise MultipleObjectsReturned
    end).

(** The built-in [sum] over decimals *)
Definition sum (l : list Decimal) : Decimal := fold_left Z.add l 0.

(** models.py, [Order.calculate_total]:
<<
    return sum(product.price for product in self.products.all())
>> *)
Definition calculate_total (self : Order) : Action Decimal :=
  ps <- Order_products_all self ;;
  ret (sum (List.map p_price ps)).

(** models.py, [Order.update_total]:
<<
    self.total_amount = self.calculate_total()
    self.save()
>> *)
Definition update_total (self : Order) : Action Order :=
  total <- calculate_total self ;;
  Order_save false
    (mkOrder (o_pk self) (o_customer_id self) total
             (o_order_date self) (o_created_at self) (o_updated_at self)).

End Models.

(* ===================================================================== *)
(** * crm/filters.py                                                      *)
(* ===================================================================== *)

(** [ProductFilter] and [OrderFilter].  A filter set holds one optional
    value for each of its filters, those declared in the class body and
    those generated from [Meta.fields], and applies them one after the
    other to the base query ([FilterSet.filter_queryset]).  A filter whose
    value is absent or empty ([None], the empty string) hands the query on
    unchanged ([Filter.filter], [FilterMethod.__call__]).  The value of a
    number filter is taken in the unit of its column. *)

Module Filters.
Import Py Models.

(** A query: the rows selected so far, with repetitions when a join
    produced them, and whether [.distinct()] was called on it.  [DISTINCT]
    is a property of the whole statement, so it is applied when the query
    runs. *)
Record QuerySet (R : Type) : Type := mkQuery {
  rows : list R;
  is_distinct : bool
}.

Arguments mkQuery {R} rows is_distinct.

Definition objects_all {R} (table : list R) : QuerySet R := mkQuery table false.

(** [qs.filter(...)] with a condition on the columns of the row *)
Definition where_ {R} (cond : R -> bool) (qs : QuerySet R) : QuerySet R :=
  mkQuery (filter cond (rows qs)) (is_distinct qs).

(** [qs.filter(rel__...)] across a relation: every row is joined to the
    rows [related r] and comes once for each of them. *)
Definition join {R S} (related : R -> list S) (qs : QuerySet R)
  : QuerySet R :=
  mkQuery (flat_map (fun r => List.map (fun _ => r) (related r)) (rows qs))
          (is_distinct qs).

Definition distinct {R} (qs : QuerySet R) : QuerySet R :=
  mkQuery (rows qs) true.

Definition Order_eq_dec (a b : Order) : {a = b} + {a <> b}.
Proof. repeat decide equality. Defined.

(** The rows that the query yields when it runs *)
Definition evaluate {R} (eq_dec : forall a b : R, {a = b} + {a <> b})
           (qs : QuerySet R) : list R :=
  if is_distinct qs then nodup eq_dec (rows qs) else rows qs.

(** [Filter.filter]: nothing happens for an empty value. *)
Definition when_given {V R} (v : option V) (f : V -> QuerySet R -> QuerySet R)
           (qs : QuerySet R) : QuerySet R :=
  match v with
  | Some x => f x qs
  | None => qs
  end.

(** The same for a [CharFilter], for which the empty string is an empty
    value too. *)
Definition when_nonempty {R} (v : option str)
           (f : str -> QuerySet R -> QuerySet R) (qs : QuerySet R)
  : QuerySet R :=
  match v with
  | Some (c :: s) => f (c :: s) qs
  | _ => qs
  end.

Fixpoint starts_with (needle hay : str) : bool :=
  match needle, hay with
  | [], _ => true
  | a :: n, b :: h => N.eqb a b && starts_with n h
  | _ :: _, [] => false
  end.

Fixpoint contains (needle hay : str) : bool :=
  starts_with needle hay
  || match hay with
     | [] => false
     | _ :: h => contains needle h
     end.

Definition opt_dt (f : datetime -> bool) (t : option datetime) : bool :=
  match t with
  | Some x => f x
  | None => false
  end.

Section FilterSets.

(** How the store folds case when it compares for [icontains]. *)
Variable casefold : char -> char.

Definition icontains (needle hay : str) : bool :=
  contains (List.map casefold needle) (List.map casefold hay).

(** ** [CustomerFilter] *)

Record CustomerFilter : Type := mkCustomerFilter {
  cf_name : option str;                 (* declared: icontains *)
  cf_name__icontains : option str;
  cf_email : option str;                (* declared: icontains *)
  cf_email__icontains : option str;
  cf_phone : option str;                (* generated: exact *)
  cf_phone__icontains : option str;
  cf_created_at : option datetime;      (* declared: exact *)
  cf_created_at__gte : option datetime;
  cf_created_at__lte : option datetime;
  cf_created_at__year : option Z;
  cf_created_at__month : option Z;
  cf_created_at__day : option Z;
  cf_phone_pattern : option str         (* declared: method *)
}.

(** A condition on the nullable column [phone]: no row whose phone is
    [NULL] meets it. *)
Definition on_phone (cond : str -> bool) (c : Customer) : bool :=
  match c_phone c with
  | Some p => cond p
  | None => false
  end.

(** filters.py, [CustomerFilter.filter_phone_pattern]:
<<
    if value:
        return queryset.filter(phone__icontains=value)
    return queryset
>> *)
Definition filter_phone_pattern (value : str) (queryset : QuerySet Customer)
  : QuerySet Customer :=
  match value with
  | _ :: _ => where_ (on_phone (icontains value)) queryset
  | [] => queryset
  end.

(** [CustomerFilter(data, queryset=Customer.objects.all()).qs] *)
Definition CustomerFilter_qs (f : CustomerFilter) (d : DB)
  : QuerySet Customer :=
  let qs := objects_all (customers d) in
  let qs := when_nonempty (cf_name f)
              (fun v => where_ (fun c => icontains v (c_name c))) qs in
  let qs := when_nonempty (cf_name__icontains f)
              (fun v => where_ (fun c => icontains v (c_name c))) qs in
  let qs := when_nonempty (cf_email f)
              (fun v => where_ (fun c => icontains v (c_email c))) qs in
  let qs := when_nonempty (cf_email__icontains f)
              (fun v => where_ (fun c => icontains v (c_email c))) qs in
  let qs := when_nonempty (cf_phone f)
              (fun v => where_ (on_phone (fun p => str_eqb p v))) qs in
  let qs := when_nonempty (cf_phone__icontains f)
              (fun v => where_ (on_phone (icontains v))) qs in
  let qs := when_given (cf_created_at f)
              (fun v => where_ (fun c => dt_eqb (c_created_at c) v)) qs in
  let qs := when_given (cf_created_at__gte f)
              (fun v => where_ (fun c => dt_leb v (c_created_at c))) qs in
  let qs := when_given (cf_created_at__lte f)
              (fun v => where_ (fun c => dt_leb (c_created_at c) v)) qs in
  let qs := when_given (cf_created_at__year f)
              (fun v => where_ (fun c => Z.eqb (year (c_created_at c)) v)) qs in
  let qs := when_given (cf_created_at__month f)
              (fun v => where_ (fun c => Z.eqb (month (c_created_at c)) v)) qs in
  let qs := when_given (cf_created_at__day f)
              (fun v => where_ (fun c => Z.eqb (day (c_created_at c)) v)) qs in
  let qs := when_nonempty (cf_phone_pattern f) filter_phone_pattern qs in
  qs.

(** The rows of the query; a query on customers is never [distinct]. *)
Definition query_customers (f : CustomerFilter) (d : DB) : list Customer :=
  rows (CustomerFilter_qs f d).

(** ** [ProductFilter] *)

Record ProductFilter : Type := mkProductFilter {
  pf_name : option str;                 (* declared: icontains *)
  pf_name__icontains : option str;
  pf_price : option Decimal;
  pf_price__gte : option Decimal;
  pf_price__lte : option Decimal;
  pf_price__gt : option Decimal;
  pf_price__lt : option Decimal;
  pf_stock : option Z;
  pf_stock__gte : option Z;
  pf_stock__lte : option Z;
  pf_stock__gt : option Z;
  pf_stock__lt : option Z;
  pf_created_at : option datetime;
  pf_created_at__gte : option datetime;
  pf_created_at__lte : option datetime;
  pf_created_at__year : option Z;
  pf_created_at__month : option Z;
  pf_created_at__day : option Z;
  pf_low_stock : option bool            (* declared: method *)
}.

(** filters.py, [ProductFilter.filter_low_stock]:
<<
    if value:
        return queryset.filter(stock__lt=10)
    return queryset
>> *)
Definition filter_low_stock (value : bool) (queryset : QuerySet Product)
  : QuerySet Product :=
  if value then where_ (fun p => Z.ltb (p_stock p) 10) queryset
  else queryset.

(** The filters of [ProductFilter] other than [low_stock], in the order
    of the filter set *)
Definition ProductFilter_fields (f : ProductFilter)
           (qs : QuerySet Product) : QuerySet Product :=
  let qs := when_nonempty (pf_name f)
              (fun v => where_ (fun p => icontains v (p_name p))) qs in
  let qs := when_nonempty (pf_name__icontains f)
              (fun v => where_ (fun p => icontains v (p_name p))) qs in
  let qs := when_given (pf_price f)
              (fun v => where_ (fun p => Z.eqb (p_price p) v)) qs in
  let qs := when_given (pf_price__gte f)
              (fun v => where_ (fun p => Z.leb v (p_price p))) qs in
  let qs := when_given (pf_price__lte f)
              (fun v => where_ (fun p => Z.leb (p_price p) v)) qs in
  let qs := when_given (pf_price__gt f)
              (fun v => where_ (fun p => Z.ltb v (p_price p))) qs in
  let qs := when_given (pf_price__lt f)
              (fun v => where_ (fun p => Z.ltb (p_price p) v)) qs in
  let qs := when_given (pf_stock f)
              (fun v => where_ (fun p => Z.eqb (p_stock p) v)) qs in
  let qs := when_given (pf_stock__gte f)
              (fun v => where_ (fun p => Z.leb v (p_stock p))) qs in
  let qs := when_given (pf_stock__lte f)
              (fun v => where_ (fun p => Z.leb (p_stock p) v)) qs in
  let qs := when_given (pf_stock__gt f)
              (fun v => where_ (fun p => Z.ltb v (p_stock p))) qs in
  let qs := when_given (pf_stock__lt f)
              (fun v => where_ (fun p => Z.ltb (p_stock p) v)) qs in
  let qs := when_given (pf_created_at f)
              (fun v => where_ (fun p => dt_eqb (p_created_at p) v)) qs in
  let qs := when_given (pf_created_at__gte f)
              (fun v => where_ (fun p => dt_leb v (p_created_at p))) qs in
  let qs := when_given (pf_created_at__lte f)
              (fun v => where_ (fun p => dt_leb (p_created_at p) v)) qs in
  let qs := when_given (pf_created_at__year f)
              (fun v => where_ (fun p => Z.eqb (year (p_created_at p)) v)) qs in
  let qs := when_given (pf_created_at__month f)
              (fun v => where_ (fun p => Z.eqb (month (p_created_at p)) v)) qs in
  let qs := when_given (pf_created_at__day f)
              (fun v => where_ (fun p => Z.eqb (day (p_created_at p)) v)) qs in
  qs.

(** [ProductFilter(data, queryset=Product.objects.all()).qs] *)
Definition ProductFilter_qs (f : ProductFilter) (d : DB)
  : QuerySet Product :=
  when_given (pf_low_stock f) filter_low_stock
        (ProductFilter_fields f (objects_all (products d))).

(** The rows of the query; a query on products is never [distinct]. *)
Definition query_products (f : ProductFilter) (d : DB) : list Product :=
  rows (ProductFilter_qs f d).

(** The filter map [f] with the key [low_stock] set to [v] *)
Definition with_low_stock (v : option bool) (f : ProductFilter)
  : ProductFilter :=
  mkProductFilter (pf_name f) (pf_name__icontains f) (pf_price f)
    (pf_price__gte f) (pf_price__lte f) (pf_price__gt f) (pf_price__lt f)
    (pf_stock f) (pf_stock__gte f) (pf_stock__lte f) (pf_stock__gt f)
    (pf_stock__lt f) (pf_created_at f) (pf_created_at__gte f)
    (pf_created_at__lte f) (pf_created_at__year f)
    (pf_created_at__month f) (pf_created_at__day f) v.

(** ** [OrderFilter] *)

Record OrderFilter : Type := mkOrderFilter {
  of_total_amount : option Decimal;
  of_total_amount__gte : option Decimal;
  of_total_amount__lte : option Decimal;
  of_total_amount__gt : option Decimal;
  of_total_amount__lt : option Decimal;
  of_order_date : option datetime;
  of_order_date__gte : option datetime;
  of_order_date__lte : option datetime;
  of_order_date__year : option Z;
  of_order_date__month : option Z;
  of_order_date__day : option Z;
  of_customer : option Z;
  of_created_at : option datetime;
  of_created_at__gte : option datetime;
  of_created_at__lte : option datetime;
  of_created_at__year : option Z;
  of_created_at__month : option Z;
  of_created_at__day : option Z;
  of_customer_name : option str;        (* customer__name, icontains *)
  of_customer_email : option str;       (* customer__email, icontains *)
  of_product_name : option str;         (* products__name, icontains *)
  of_product_id : option Z              (* declared: method *)
}.

(** The customer rows that [customer__...] joins to an order *)
Definition customer_of (d : DB) (o : Order) : list Customer :=
  filter (fun c => Z.eqb (c_id c) (o_customer_id o)) (customers d).

(** The product rows that [products__...] joins to an order, one for
    each row of the many-to-many table *)
Definition products_joined (d : DB) (o : Order) : list Product :=
  match o_pk o with
  | Some k => products_of k d
  | None => []
  end.

(** filters.py, [OrderFilter.filter_by_product_id]:
<<
    if value:
        return queryset.filter(products__id=value).distinct()
    return queryset
>> *)
Definition filter_by_product_id (d : DB) (value : Z)
           (queryset : QuerySet Order) : QuerySet Order :=
  if negb (Z.eqb value 0)
  then distinct
         (join (fun o => filter (fun p => Z.eqb (p_id p) value)
                                (products_joined d o)) queryset)
  else queryset.

(** [product_name = CharFilter(field_name='products__name',
    lookup_expr='icontains')]: [queryset.filter(
    products__name__icontains=value)], and no more. *)
Definition filter_product_name (d : DB) (value : str)
           (queryset : QuerySet Order) : QuerySet Order :=
  join (fun o => filter (fun p => icontains value (p_name p))
                        (products_joined d o)) queryset.

Definition OrderFilter_qs (f : OrderFilter) (d : DB) : QuerySet Order :=
  let qs := objects_all (orders d) in
  let qs := when_given (of_total_amount f)
              (fun v => where_ (fun o => Z.eqb (o_total_amount o) v)) qs in
  let qs := when_given (of_total_amount__gte f)
              (fun v => where_ (fun o => Z.leb v (o_total_amount o))) qs in
  let qs := when_given (of_total_amount__lte f)
              (fun v => where_ (fun o => Z.leb (o_total_amount o) v)) qs in
  let qs := when_given (of_total_amount__gt f)
              (fun v => where_ (fun o => Z.ltb v (o_total_amount o))) qs in
  let qs := when_given (of_total_amount__lt f)
              (fun v => where_ (fun o => Z.ltb (o_total_amount o) v)) qs in
  let qs := when_given (of_order_date f)
              (fun v => where_ (fun o => dt_eqb (o_order_date o) v)) qs in
  let qs := when_given (of_order_date__gte f)
              (fun v => where_ (fun o => dt_leb v (o_order_date o))) qs in
  let qs := when_given (of_order_date__lte f)
              (fun v => where_ (fun o => dt_leb (o_order_date o) v)) qs in
  let qs := when_given (of_order_date__year f)
              (fun v => where_ (fun o => Z.eqb (year (o_order_date o)) v)) qs in
  let qs := when_given (of_order_date__month f)
              (fun v => where_ (fun o => Z.eqb (month (o_order_date o)) v)) qs in
  let qs := when_given (of_order_date__day f)
              (fun v => where_ (fun o => Z.eqb (day (o_order_date o)) v)) qs in
  let qs := when_given (of_customer f)
              (fun v => where_ (fun o => Z.eqb (o_customer_id o) v)) qs in
  let qs := when_given (of_created_at f)
              (fun v => where_ (fun o =>
                 opt_dt (fun t => dt_eqb t v) (o_created_at o))) qs in
  let qs := when_given (of_created_at__gte f)
              (fun v => where_ (fun o => opt_dt (dt_leb v) (o_created_at o))) qs in
  let qs := when_given (of_created_at__lte f)
              (fun v => where_ (fun o =>
                 opt_dt (fun t => dt_leb t v) (o_created_at o))) qs in
  let qs := when_given (of_created_at__year f)
              (fun v => where_ (fun o =>
                 opt_dt (fun t => Z.eqb (year t) v) (o_created_at o))) qs in
  let qs := when_given (of_created_at__month f)
              (fun v => where_ (fun o =>
                 opt_dt (fun t => Z.eqb (month t) v) (o_created_at o))) qs in
  let qs := when_given (of_created_at__day f)
              (fun v => where_ (fun o =>
                 opt_dt (fun t => Z.eqb (day t) v) (o_created_at o))) qs in
  let qs := when_nonempty (of_customer_name f)
              (fun v => join (fun o =>
                 filter (fun c => icontains v (c_name c)) (customer_of d o))) qs in
  let qs := when_nonempty (of_customer_email f)
              (fun v => join (fun o =>
                 filter (fun c => icontains v (c_email c)) (customer_of d o))) qs in
  let qs := when_nonempty (of_product_name f) (filter_product_name d) qs in
  let qs := when_given (of_product_id f) (filter_by_product_id d) qs in
  qs.

(** The orders that the query yields *)
Definition query_orders (f : OrderFilter) (d : DB) : list Order :=
  evaluate Order_eq_dec (OrderFilter_qs f d).

End FilterSets.

(** Case folding of the ASCII letters, for concrete runs. *)
Definition ascii_lower (c : char) : char :=
  if (N.leb 65 c && N.leb c 90)%N then (c + 32)%N else c.

End Filters.

(* ===================================================================== *)
(** * crm/schema.py: the mutations                                        *)
(* ===================================================================== *)

Module Schema.
Import Py Models.
Local Open Scope action_scope.

(** A [graphene.Float]: a finite value, written as the number that
    [str()] prints for it, an infinity, or NaN. *)
Inductive Float : Type :=
| Finite (q : Q)
| PosInf
| NegInf
| NaN.

(** [x <= 0] *)
Definition float_le_0 (x : Float) : bool :=
  match x with
  | Finite q => Qle_bool q 0
  | NegInf => true
  | PosInf | NaN => false
  end.

(** What a [DecimalField] with two decimal places keeps of a decimal:
    the nearest number of hundredths, ties to the even one. *)
Definition quantize (q : Q) : Decimal :=
  let n := Qnum q * 100 in
  let d := Zpos (Qden q) in
  let f := n / d in
  match Z.compare (2 * (n mod d)) d with
  | Lt => f
  | Gt => f + 1
  | Eq => if Z.even f then f else f + 1
  end.

(** ** Input types *)

Record CustomerInput : Type := mkCustomerInput {
  ci_name : str;
  ci_email : str;
  ci_phone : option str
}.

Record ProductInput : Type := mkProductInput {
  pi_name : str;
  pi_price : Float;
  pi_stock : option Z
}.

(** [product_ids] is a required list whose elements may be null. *)
Record OrderInput : Type := mkOrderInput {
  oi_customer_id : ID;
  oi_product_ids : list (option ID);
  oi_order_date : option datetime
}.

(** ** Result types

    [CustomerMutationResult], [ProductMutationResult] and
    [OrderMutationResult] have one shape. *)
Record MutationResult (E : Type) : Type := mkResult {
  value : option E;
  message : str;
  success : bool
}.

Arguments mkResult {E} value message success.

Definition CustomerMutationResult := MutationResult Customer.
Definition ProductMutationResult := MutationResult Product.
Definition OrderMutationResult := MutationResult Order.

Record BulkCustomerMutationResult : Type := mkBulkResult {
  b_customers : list Customer;
  b_errors : list str;
  b_success : bool
}.

(** ** The phone pattern

    [r'^(\+\d{1,3}\d{9,10}|\d{3}-\d{3}-\d{4})$'] *)

Definition plus_sign : char := 43%N.
Definition hyphen : char := 45%N.

(** [\+\d{1,3}\d{9,10}] *)
Definition international : regex :=
  Seq (Chr plus_sign) (Seq (Rep Digit 1 3) (Rep Digit 9 10)).

(** [\d{3}-\d{3}-\d{4}] *)
Definition dashed : regex :=
  Seq (Rep Digit 3 3)
      (Seq (Chr hyphen)
           (Seq (Rep Digit 3 3) (Seq (Chr hyphen) (Rep Digit 4 4)))).

Definition anchored (r : regex) : regex := Seq Bol (Seq r Eol).

Definition phone_pattern : regex := anchored (Alt international dashed).

Definition msg_email_exists : str := lit "Email already exists".
Definition msg_phone_format : str :=
  lit "Phone must be in format '+1234567890' or '123-456-7890'".
Definition msg_customer_created : str := lit "Customer created successfully".
Definition msg_price_positive : str := lit "Price must be positive".
Definition msg_stock_negative : str := lit "Stock cannot be negative".
Definition msg_product_created : str := lit "Product created successfully".
Definition msg_invalid_customer : str := lit "Invalid customer ID".
Definition msg_product_required : str := lit "At least one product is required".
Definition msg_invalid_products : str := lit "One or more invalid product IDs".
Definition msg_order_created : str := lit "Order created successfully".

Definition failure {E} (m : str) : MutationResult E := mkResult None m false.

Section Mutations.

Variable isdecimal : char -> bool.

(** schema.py, lines 104-106 and 154-156:
<<
    if input.phone:
        if not re.match(phone_pattern, input.phone):
>> *)
Definition phone_rejected (phone : option str) : bool :=
  match phone with
  | Some s => truthy_str phone && negb (re_match isdecimal phone_pattern s)
  | None => false
  end.

(** ** [CreateCustomer.mutate] *)
Definition CreateCustomer_mutate (input : CustomerInput)
  : Action CustomerMutationResult :=
  try_except
    (taken <- Customer_email_exists (ci_email input) ;;
     if taken then ret (failure msg_email_exists)
     else if phone_rejected (ci_phone input)
     then ret (failure msg_phone_format)
     else
       customer <- Customer_create (ci_name input) (ci_email input)
                                   (ci_phone input) ;;
       ret (mkResult (Some customer) msg_customer_created true))
    (fun e =>
       ret (failure (lit "Error creating customer: " ++ str_of_exception e))).

(** ** [BulkCreateCustomers.mutate] *)

Definition customer_n (i : nat) (reason : str) : str :=
  lit "Customer " ++ str_of_nat (i + 1) ++ lit ": " ++ reason.

(** One turn of the loop on the item [customer_data] of index [i]; the
    two lists are [created_customers] and [errors]. *)
Definition bulk_item (i : nat) (customer_data : CustomerInput)
           (acc : list Customer * list str)
  : Action (list Customer * list str) :=
  let '(created_customers, errors) := acc in
  try_except
    (taken <- Customer_email_exists (ci_email customer_data) ;;
     if taken
     then ret (created_customers,
               errors ++ [customer_n i (lit "Email already exists")])
     else if phone_rejected (ci_phone customer_data)
     then ret (created_customers,
               errors ++ [customer_n i (lit "Invalid phone format")])
     else
       customer <- Customer_create (ci_name customer_data)
                                   (ci_email customer_data)
                                   (ci_phone customer_data) ;;
       ret (created_customers ++ [customer], errors))
    (fun e =>
       ret (created_customers, errors ++ [customer_n i (str_of_exception e)])).

(** [for i, customer_data in enumerate(input)] from index [i] on *)
Fixpoint bulk_loop (i : nat) (input : list CustomerInput)
         (acc : list Customer * list str)
  : Action (list Customer * list str) :=
  match input with
  | [] => ret acc
  | customer_data :: rest =>
      acc' <- bulk_item i customer_data acc ;;
      bulk_loop (S i) rest acc'
  end.

Definition BulkCreateCustomers_mutate (input : list CustomerInput)
  : Action BulkCustomerMutationResult :=
  try_except
    (acc <- atomic (bulk_loop 0 input ([], [])) ;;
     ret (mkBulkResult (fst acc) (snd acc)
                       (Nat.ltb 0 (List.length (fst acc)))))
    (fun e =>
       ret (mkBulkResult []
              [lit "Transaction failed: " ++ str_of_exception e] false)).

(** ** [CreateProduct.mutate] *)

(** [Decimal(str(input.price))], as the store keeps it; a decimal that is
    not finite is refused on the way to the store. *)
Definition decimal_of_float (x : Float) : Outcome Decimal :=
  match x with
  | Finite q => Return (quantize q)
  | _ => Raise ValidationError
  end.

Definition CreateProduct_mutate (input : ProductInput)
  : Action ProductMutationResult :=
  try_except
    (if float_le_0 (pi_price input)
     then ret (failure msg_price_positive)
     else
       let stock := match pi_stock input with Some n => n | None => 0 end in
       if Z.ltb stock 0
       then ret (failure msg_stock_negative)
       else
         price <- lift (decimal_of_float (pi_price input)) ;;
         product <- Product_create (pi_name input) price stock ;;
         ret (mkResult (Some product) msg_product_created true))
    (fun e =>
       ret (failure (lit "Error creating product: " ++ str_of_exception e))).

(** ** [CreateOrder.mutate] *)

(** Lines 240-247: the inner [try] covers the lookup only. *)
Definition resolve_customer (i : ID)
  : Action (OrderMutationResult + Customer) :=
  except_DoesNotExist
    (customer <- Customer_get i ;; ret (inr customer))
    (ret (inl (failure msg_invalid_customer))).

(** Lines 269-276, the body of [with transaction.atomic()] *)
Definition create_order_block (customer : Customer) (total_amount : Decimal)
           (order_date : option datetime) (products : list Product)
  : Action Order :=
  date <- match order_date with
          | Some d => ret d
          | None => now
          end ;;
  order <- Order_objects_create customer total_amount date ;;
  Order_products_set order products ;;;
  update_total order.

(** Lines 239-282, the body of the outer [try] *)
Definition CreateOrder_try (input : OrderInput)
  : Action OrderMutationResult :=
  found <- resolve_customer (oi_customer_id input) ;;
  match found with
  | inl refusal => ret refusal
  | inr customer =>
      match oi_product_ids input with
      | [] => ret (failure msg_product_required)
      | _ :: _ =>
          ks <- lift (prep_id_in (oi_product_ids input)) ;;
          products <- read (fun d => Return (Product_id_in ks d)) ;;
          if negb (Nat.eqb (List.length products)
                           (List.length (oi_product_ids input)))
          then ret (failure msg_invalid_products)
          else
            let total_amount := sum (List.map p_price products) in
            order <- atomic (create_order_block customer total_amount
                               (oi_order_date input) products) ;;
            ret (mkResult (Some order) msg_order_created true)
      end
  end.

Definition CreateOrder_mutate (input : OrderInput)
  : Action OrderMutationResult :=
  try_except
    (CreateOrder_try input)
    (fun e =>
       ret (failure (lit "Error creating order: " ++ str_of_exception e))).

End Mutations.

(** ** [OrderType] and [Query] *)

(** schema.py, [OrderType.resolve_products]:
<<
    return self.products.all()
>> *)
Definition resolve_products (self : Order) : Action (list Product) :=
  Order_products_all self.

(** [try: return c  except Model.DoesNotExist: return None] *)
Definition or_None {R} (c : Action R) : Action (option R) :=
  except_DoesNotExist (r <- c ;; ret (Some r)) (ret None).

(** schema.py, [Query.resolve_customer_by_id] *)
Definition resolve_customer_by_id (id : ID) : Action (option Customer) :=
  or_None (Customer_get id).

(** schema.py, [Query.resolve_product_by_id] *)
Definition resolve_product_by_id (id : ID) : Action (option Product) :=
  or_None (Product_get id).

(** schema.py, [Query.resolve_order_by_id] *)
Definition resolve_order_by_id (id : ID) : Action (option Order) :=
  or_None (Order_get id).

End Schema.

(* ===================================================================== *)
(** * Vocabulary of the properties                                        *)
(* ===================================================================== *)

Module Vocabulary.
Import Py Models Filters Schema.

(** Two worlds of one request, before and after a step that touched
    neither the clock nor the flags of the transaction. *)
Definition same_session (w w' : World) : Prop :=
  clock w' = clock w /\ in_atomic w' = in_atomic w
  /\ needs_rollback w' = needs_rollback w.

(** An action that leaves the tables as they were, however it ends. *)
Definition keeps_db {A} (c : Action A) : Prop :=
  forall w r w', c w = (r, w') -> db w' = db w.

(** The id [i] of a request names a product of the store. *)
Definition resolves (d : DB) (i : option ID) : Prop :=
  exists k p, i = Some (IdInt k) /\ In p (products d) /\ p_id p = k.

(** ** A small store for concrete runs

    One customer and three products, with the prices of the fourth and the
    stocks of the sixth example scenario of the specification. *)

Definition new_year : datetime := mkDatetime 2024 1 1 0.

(** A clock that advances by one microsecond at each reading. *)
Definition demo_clock (n : nat) : datetime :=
  mkDatetime 2024 3 15 (Z.of_nat n).

Definition ana : Customer :=
  mkCustomer 1 (lit "Ana") (lit "a@x.com") (Some (lit "+14155550100"))
             new_year new_year.

Definition widget_a : Product :=
  mkProduct 1 (lit "Widget A") 1000 5 new_year new_year.
Definition widget_b : Product :=
  mkProduct 2 (lit "Widget B") 550 12 new_year new_year.
Definition gasket : Product :=
  mkProduct 3 (lit "Gasket") 125 9 new_year new_year.

Definition demo_db : DB := mkDB [ana] [widget_a; widget_b; gasket] [] [].

Definition demo_world : World := calm demo_db demo_clock.

(** An order for the two widgets, and one that names the first widget
    twice. *)
Definition two_widgets : OrderInput :=
  mkOrderInput (IdInt 1) [Some (IdInt 1); Some (IdInt 2)] None.
Definition widget_twice : OrderInput :=
  mkOrderInput (IdInt 1) [Some (IdInt 1); Some (IdInt 1)] None.
Definition widget_and_ghost : OrderInput :=
  mkOrderInput (IdInt 1) [Some (IdInt 1); Some (IdInt 99)] None.
Definition last_century : datetime := mkDatetime 1999 12 31 0.
Definition backdated : OrderInput :=
  mkOrderInput (IdInt 1) [Some (IdInt 1); Some (IdInt 2)] (Some last_century).

(** The [success] flag of the result of a run; an exception that leaves
    the mutation counts as no success. *)
Definition success_of {E} (run : Outcome (MutationResult E) * World) : bool :=
  match fst run with
  | Return r => success r
  | Raise _ => false
  end.

(** ** Validation of customers, in the words of the specification

    A customer is turned down if the email already exists in the store, or
    if the phone is given and fits neither accepted format.  In a batch the
    store that an item is checked against holds the items that passed
    before it. *)

Inductive verdict : Type :=
| Passes
| EmailTaken
| BadPhone.

Definition passes (v : verdict) : bool :=
  match v with
  | Passes => true
  | _ => false
  end.

Section Validation.

Variable isdecimal : char -> bool.

(** The first [m] characters of [s] are digits, and [k] accepts the
    rest. *)
Definition digits_then (m : nat) (pos : nat) (s : str) (k : kont) : Prop :=
  (m <= List.length s)%nat
  /\ forallb isdecimal (firstn m s) = true
  /\ k (pos + m)%nat (skipn m s) = true.

(** The phone fits one of the two formats: [^\+\d{1,3}\d{9,10}$] or
    [^\d{3}-\d{3}-\d{4}$]. *)
Definition fits_a_format (s : str) : bool :=
  re_match isdecimal (anchored international) s
  || re_match isdecimal (anchored dashed) s.

Definition check (emails : list str) (x : CustomerInput) : verdict :=
  if existsb (fun e => str_eqb e (ci_email x)) emails then EmailTaken
  else
    match ci_phone x with
    | Some (c :: s) => if fits_a_format (c :: s) then Passes else BadPhone
    | _ => Passes
    end.

(** The verdicts on the items of a batch, [emails] being the emails of
    the store when the batch starts. *)
Fixpoint verdicts (emails : list str) (input : list CustomerInput)
  : list verdict :=
  match input with
  | [] => []
  | x :: rest =>
      let v := check emails x in
      v :: verdicts (if passes v then emails ++ [ci_email x] else emails)
                    rest
  end.

End Validation.

(** The items of a batch that passed. *)
Fixpoint accepted (input : list CustomerInput) (vs : list verdict)
  : list CustomerInput :=
  match input, vs with
  | x :: rest, v :: vs' =>
      if passes v then x :: accepted rest vs' else accepted rest vs'
  | _, _ => []
  end.

(** The error strings due for the verdicts on the items from index [i]
    on. *)
Fixpoint complaints (i : nat) (vs : list verdict) : list str :=
  match vs with
  | [] => []
  | Passes :: vs' => complaints (S i) vs'
  | EmailTaken :: vs' =>
      customer_n i (lit "Email already exists") :: complaints (S i) vs'
  | BadPhone :: vs' =>
      customer_n i (lit "Invalid phone format") :: complaints (S i) vs'
  end.

Definition count_failed (vs : list verdict) : nat :=
  List.length (filter (fun v => negb (passes v)) vs).

Definition count_passed (vs : list verdict) : nat :=
  List.length (filter passes vs).

(** What a customer row has of the input that made it. *)
Definition as_input (c : Customer) : CustomerInput :=
  mkCustomerInput (c_name c) (c_email c) (c_phone c).

(** A batch of three: a new customer, the email of an existing one, a
    malformed phone; and a fourth that passes after the two failures. *)
Definition demo_batch : list CustomerInput :=
  [ mkCustomerInput (lit "Ben") (lit "b@x.com") (Some (lit "415-555-0101"));
    mkCustomerInput (lit "Ann") (lit "a@x.com") None;
    mkCustomerInput (lit "Cy") (lit "c@x.com") (Some (lit "5550101"));
    mkCustomerInput (lit "Di") (lit "d@x.com") None ].

(** ** Filter maps for concrete runs *)

(** No key at all. *)
Definition no_product_filter : ProductFilter :=
  mkProductFilter None None None None None None None None None None None
                  None None None None None None None None.

(** The filter map with the one key [product_name]. *)
Definition by_product_name (v : str) : OrderFilter :=
  mkOrderFilter None None None None None None None None None None None
                None None None None None None None None None (Some v) None.

(** The filter map with the keys [product_name] and [product_id]. *)
Definition by_product_name_and_id (v : str) (k : Z) : OrderFilter :=
  mkOrderFilter None None None None None None None None None None None
                None None None None None None None None None (Some v)
                (Some k).

(** The demo store after the order for the two widgets. *)
Definition store_with_order : DB :=
  db (snd (CreateOrder_mutate two_widgets demo_world)).

(** An action that keeps a property of the tables, however it ends. *)
Definition preserves {A} (P : DB -> Prop) (c : Action A) : Prop :=
  forall w r w', P (db w) -> c w = (r, w') -> P (db w').

(** The product table has a primary key. *)
Definition product_pk (d : DB) : Prop := NoDup (List.map p_id (products d)).

(** Every row of the many-to-many table belongs to an order of the
    store. *)
Definition links_have_orders (d : DB) : Prop :=
  forall op, In op (order_products d) -> In (fst op) (order_ids d).

(** ** Consistent stores *)

Definition customer_pk (d : DB) : Prop := NoDup (List.map c_id (customers d)).

Definition email_unique (d : DB) : Prop :=
  NoDup (List.map c_email (customers d)).

(** Every order row has a primary key, and no two have the same. *)
Definition order_pk (d : DB) : Prop :=
  (forall o, In o (orders d) -> o_pk o <> None) /\ NoDup (order_ids d).

Definition links_have_products (d : DB) : Prop :=
  forall op, In op (order_products d) ->
             In (snd op) (List.map p_id (products d)).

Definition orders_have_customers (d : DB) : Prop :=
  forall o, In o (orders d) ->
            In (o_customer_id o) (List.map c_id (customers d)).

Definition links_unique (d : DB) : Prop := NoDup (order_products d).

(** The total of every order is the sum of the prices of the products
    joined to it. *)
Definition totals_hold (d : DB) : Prop :=
  forall o k, In o (orders d) -> o_pk o = Some k ->
              o_total_amount o = sum (List.map p_price (products_of k d)).

(** The constraints that models.py declares (primary keys, the unique
    email, the foreign keys of [Order.customer] and [Order.products]) and
    the totals. *)
Record consistent (d : DB) : Prop := mkConsistent {
  ok_customer_pk : customer_pk d;
  ok_email_unique : email_unique d;
  ok_product_pk : product_pk d;
  ok_order_pk : order_pk d;
  ok_links_have_orders : links_have_orders d;
  ok_links_have_products : links_have_products d;
  ok_links_unique : links_unique d;
  ok_orders_have_customers : orders_have_customers d;
  ok_totals_hold : totals_hold d
}.

(** The stores that the four mutations can produce from the empty one, in
    any world: any input, any faults of the store, any clock. *)
Inductive reachable (isdecimal : char -> bool) : DB -> Prop :=
| reach_empty : reachable isdecimal empty_db
| reach_createCustomer input w r w' :
    reachable isdecimal (db w) ->
    CreateCustomer_mutate isdecimal input w = (r, w') ->
    reachable isdecimal (db w')
| reach_bulkCreateCustomers input w r w' :
    reachable isdecimal (db w) ->
    BulkCreateCustomers_mutate isdecimal input w = (r, w') ->
    reachable isdecimal (db w')
| reach_createProduct input w r w' :
    reachable isdecimal (db w) ->
    CreateProduct_mutate input w = (r, w') ->
    reachable isdecimal (db w')
| reach_createOrder input w r w' :
    reachable isdecimal (db w) ->
    CreateOrder_mutate input w = (r, w') ->
    reachable isdecimal (db w').

(** A store built from the empty one by three mutations: a customer, a
    product at 0.75, an order of the customer for the product. *)
Definition cy : CustomerInput :=
  mkCustomerInput (lit "Cy") (lit "c@x.com") None.
Definition bolt : ProductInput :=
  mkProductInput (lit "Bolt") (Finite (3 # 4)) None.
Definition one_bolt : OrderInput :=
  mkOrderInput (IdInt 1) [Some (IdInt 1)] None.

Definition after {A} (run : Outcome A * World) : World :=
  calm (db (snd run)) demo_clock.

Definition built_store : DB :=
  db (snd (CreateOrder_mutate one_bolt
             (after (CreateProduct_mutate bolt
                       (after (CreateCustomer_mutate ascii_digit cy
                                 (calm empty_db demo_clock))))))).

(** The tables of [d] with one more customer row. *)
Definition with_customer (c : Customer) (d : DB) : DB :=
  mkDB (customers d ++ [c]) (products d) (orders d) (order_products d).

(** The tables of [d] with one more product row. *)
Definition with_product (p : Product) (d : DB) : DB :=
  mkDB (customers d) (products d ++ [p]) (orders d) (order_products d).

(** ** What a filter map asks of a row *)

(** The condition of a filter on a row: none when the value is absent. *)
Definition asks {V} (v : option V) (cond : V -> bool) : bool :=
  match v with
  | Some x => cond x
  | None => true
  end.

(** The same for a text value: none either when the value is empty. *)
Definition asks_text (v : option str) (cond : str -> bool) : bool :=
  match v with
  | Some (c :: s) => cond (c :: s)
  | _ => true
  end.

Section Matches.

Variable casefold : char -> char.




End Matches.

(** The filter map with the one key [customer_name]. *)
Definition by_customer_name (v : str) : OrderFilter :=
  mkOrderFilter None None None None None None None None None None None
                None None None None None None None (Some v) None None None.

(** The filter map [f] with the key [product_id] set to [v] *)
Definition with_product_id (v : option Z) (f : OrderFilter) : OrderFilter :=
  mkOrderFilter (of_total_amount f) (of_total_amount__gte f)
    (of_total_amount__lte f) (of_total_amount__gt f) (of_total_amount__lt f)
    (of_order_date f) (of_order_date__gte f) (of_order_date__lte f)
    (of_order_date__year f) (of_order_date__month f) (of_order_date__day f)
    (of_customer f) (of_created_at f) (of_created_at__gte f)
    (of_created_at__lte f) (of_created_at__year f) (of_created_at__month f)
    (of_created_at__day f) (of_customer_name f) (of_customer_email f)
    (of_product_name f) v.


(** A query that yields no row twice: it is [distinct], or its rows do
    not repeat. *)
Definition never_twice {R} (qs : QuerySet R) : Prop :=
  is_distinct qs = true \/ NoDup (rows qs).

(** The filter [product_name] is not in use: absent, or empty. *)
Definition no_product_name (f : OrderFilter) : Prop :=
  of_product_name f = None \/ of_product_name f = Some [].

(** What [$] lets follow the match: nothing, or one newline that ends the
    subject. *)
Definition ends_line (tail : str) : Prop := tail = [] \/ tail = [10%N].

(** The tables of [d] with the customer rows [cs] added. *)
Definition with_customers (cs : list Customer) (d : DB) : DB :=
  mkDB (customers d ++ cs) (products d) (orders d) (order_products d).

(** [createCustomer] on each item of a list in turn; the customers that
    were created. *)
Fixpoint one_by_one (isdecimal : char -> bool) (input : list CustomerInput)
  : Action (list Customer) :=
  match input with
  | [] => ret []
  | x :: rest =>
      bind (CreateCustomer_mutate isdecimal x) (fun r =>
      bind (one_by_one isdecimal rest) (fun cs =>
      ret (match value r with
           | Some c => c :: cs
           | None => cs
           end)))
  end.

(** The filter map in which the values of [name] and [name__icontains], of
    [email] and [email__icontains], and of [phone_pattern] and
    [phone__icontains] have changed places. *)
Definition swap_twins (f : CustomerFilter) : CustomerFilter :=
  mkCustomerFilter (cf_name__icontains f) (cf_name f)
    (cf_email__icontains f) (cf_email f)
    (cf_phone f) (cf_phone_pattern f)
    (cf_created_at f) (cf_created_at__gte f) (cf_created_at__lte f)
    (cf_created_at__year f) (cf_created_at__month f) (cf_created_at__day f)
    (cf_phone__icontains f).

End Vocabulary.

(* ===================================================================== *)
(** * Properties                                                          *)
(* ===================================================================== *)

Import Py Models Filters Schema Vocabulary.
Local Open Scope action_scope.

(** ** Strings and lists *)

Lemma str_eqb_eq a b : str_eqb a b = true <-> a = b.
Proof.
  unfold str_eqb. destruct (list_eq_dec N.eq_dec a b); split; congruence.
Qed.

Lemma mem_In x l : mem x l = true <-> In x l.
Proof.
  unfold mem. rewrite existsb_exists. split.
  - intros (y & Hy & E). apply Z.eqb_eq in E. now subst.
  - intros H. exists x. split; [assumption | apply Z.eqb_refl].
Qed.

Lemma fold_max_ge (l : list Z) x : In x l -> x <= fold_right Z.max 0 l.
Proof.
  induction l as [|y l IH]; simpl; [tauto|].
  intros [->|H]; [lia | specialize (IH H); lia].
Qed.

Lemma next_pk_fresh (l : list Z) : ~ In (next_pk l) l.
Proof.
  unfold next_pk. intros H. apply fold_max_ge in H. lia.
Qed.

Lemma next_pk_pos (l : list Z) : 0 < next_pk l.
Proof.
  unfold next_pk.
  assert (0 <= fold_right Z.max 0 l) by (induction l; simpl; lia). lia.
Qed.

Lemma has_pk_order_ids k d :
  existsb (has_pk k) (orders d) = true <-> In k (order_ids d).
Proof.
  unfold order_ids. rewrite existsb_exists, in_flat_map. split.
  - intros (o & Ho & E). exists o. split; [assumption|].
    unfold has_pk in E. destruct (o_pk o); [|discriminate].
    apply Z.eqb_eq in E. subst. now left.
  - intros (o & Ho & E). exists o. split; [assumption|].
    unfold has_pk. destruct (o_pk o); [|contradiction].
    destruct E as [->|[]]. apply Z.eqb_refl.
Qed.

(** ** Running actions *)

Lemma bind_Return A B (c : Action A) (f : A -> Action B) w b w' :
  bind c f w = (Return b, w') ->
  exists a w1, c w = (Return a, w1) /\ f a w1 = (Return b, w').
Proof.
  unfold bind. destruct (c w) as [[a|e] w1]; [eauto | discriminate].
Qed.

Lemma statement_Return A write (f : DB -> Outcome A * DB) w a w' :
  statement write f w = (Return a, w') ->
  exists d, f (db w) = (Return a, d)
            /\ w' = set_db d (set_faults (tl (faults w)) w).
Proof.
  unfold statement.
  destruct (in_atomic w && needs_rollback w); [discriminate|].
  destruct (hd false (faults w)); [discriminate|].
  simpl. destruct (f (db w)) as [[x|e] d]; [|discriminate].
  intros E. inversion E. subst. eauto.
Qed.

Lemma now_Return w t w' :
  now w = (Return t, w') -> t = clock w (tick w) /\ w' = set_tick (S (tick w)) w.
Proof. unfold now. intros E. inversion E. auto. Qed.

(** Reading changes no table, whatever comes of it. *)
Lemma read_db A (f : DB -> Outcome A) w r w' :
  read f w = (r, w') -> db w' = db w.
Proof.
  unfold read, statement.
  destruct (in_atomic w && needs_rollback w).
  - intros E. now inversion E.
  - destruct (hd false (faults w)).
    + intros E. inversion E. unfold mark_for_rollback. now simpl.
    + simpl. destruct (f (db w)); intros E; inversion E; reflexivity.
Qed.

Lemma statement_ok A write (f : DB -> Outcome A * DB) w a w' :
  statement write f w = (Return a, w') ->
  f (db w) = (Return a, db w')
  /\ tick w' = tick w /\ same_session w w'.
Proof.
  intros H. apply statement_Return in H. destruct H as (d & E & ->).
  unfold same_session. simpl. repeat split; auto.
Qed.

Lemma now_ok w t w' :
  now w = (Return t, w') ->
  t = clock w (tick w) /\ db w' = db w /\ tick w' = S (tick w)
  /\ same_session w w'.
Proof.
  intros H. apply now_Return in H. destruct H as [-> ->].
  unfold same_session. simpl. repeat split; auto.
Qed.

Lemma same_session_trans w1 w2 w3 :
  same_session w1 w2 -> same_session w2 w3 -> same_session w1 w3.
Proof. unfold same_session. intuition congruence. Qed.

(** ** Saving an order *)

Lemma Model_save_insert self w row w' fi :
  o_pk self = None ->
  Model_save fi self w = (Return row, w') ->
  let k := next_pk (order_ids (db w)) in
  let t := clock w (tick w) in
  row = inserted self k t
  /\ db w' = put_orders (orders (db w) ++ [row]) (db w)
  /\ same_session w w'.
Proof.
  intros Hpk H. unfold Model_save in H.
  apply bind_Return in H. destruct H as (t & wt & Ht & H).
  apply now_ok in Ht. destruct Ht as (-> & Hd & Htick & Hs).
  apply statement_ok in H. destruct H as (E & _ & Hs').
  rewrite Hpk, Hd in E. inversion E as [[E1 E2]].
  repeat split; try reflexivity; try (eapply same_session_trans; eassumption).
Qed.

Lemma Model_save_update self k w row w' :
  o_pk self = Some k ->
  existsb (has_pk k) (orders (db w)) = true ->
  Model_save false self w = (Return row, w') ->
  row = updated self (clock w (tick w))
  /\ db w' = put_orders (List.map (fun o => if has_pk k o then row else o)
                                  (orders (db w))) (db w)
  /\ same_session w w'.
Proof.
  intros Hpk Hex H. unfold Model_save in H.
  apply bind_Return in H. destruct H as (t & wt & Ht & H).
  apply now_ok in Ht. destruct Ht as (-> & Hd & Htick & Hs).
  apply statement_ok in H. destruct H as (E & _ & Hs').
  rewrite Hpk, Hd, Hex in E. inversion E as [[E1 E2]].
  repeat split; try reflexivity; try (eapply same_session_trans; eassumption).
Qed.

Lemma products_of_ext k d d' :
  products d' = products d -> order_products d' = order_products d ->
  products_of k d' = products_of k d.
Proof. unfold products_of. now intros -> ->. Qed.

Lemma ret_Return A (a b : A) w w' :
  ret a w = (Return b, w') -> a = b /\ w = w'.
Proof. unfold ret. intros E. inversion E. auto. Qed.

Lemma create_order_block_spec customer total od ps w order w1 :
  create_order_block customer total od ps w = (Return order, w1) ->
  exists k,
    o_pk order = Some k
    /\ ~ In k (order_ids (db w))
    /\ same_session w w1
    /\ orders (db w1) = orders (db w) ++ [order]
    /\ o_total_amount order = sum (List.map p_price (products_of k (db w1)))
    /\ o_customer_id order = c_id customer
    /\ o_created_at order = Some (o_order_date order)
    /\ order_products (db w1) = order_products (set_products k ps (db w))
    /\ products (db w1) = products (db w)
    /\ customers (db w1) = customers (db w).
Proof.
  unfold create_order_block. intros H.
  apply bind_Return in H. destruct H as (date & wa & Hdate & H).
  apply bind_Return in H. destruct H as (o1 & wb & Hcreate & H).
  apply bind_Return in H. destruct H as (u & wc & Hset & H).
  assert (Ha : db wa = db w /\ same_session w wa).
  { destruct od.
    - apply ret_Return in Hdate. destruct Hdate as [_ <-].
      unfold same_session. auto.
    - apply now_ok in Hdate. tauto. }
  destruct Ha as [Hda Hsa].
  unfold Order_objects_create, Order_save in Hcreate. simpl in Hcreate.
  apply Model_save_insert in Hcreate; [|reflexivity].
  rewrite Hda in Hcreate. simpl in Hcreate.
  set (k := next_pk (order_ids (db w))) in *.
  destruct Hcreate as (Ho1 & Hdb & Hsb).
  assert (Hk : o_pk o1 = Some k) by (now subst o1).
  unfold Order_products_set in Hset. rewrite Hk in Hset.
  apply statement_ok in Hset. destruct Hset as (Eset & _ & Hsc).
  injection Eset as _ Hdc.
  unfold update_total in H.
  apply bind_Return in H. destruct H as (tot & wd & Htot & H).
  unfold calculate_total in Htot.
  apply bind_Return in Htot. destruct Htot as (prods & we & Hall & Htot).
  unfold Order_products_all in Hall. rewrite Hk in Hall.
  apply statement_ok in Hall. destruct Hall as (Eall & _ & Hse).
  injection Eall as Hprods Hde.
  apply ret_Return in Htot. destruct Htot as [<- <-].
  unfold Order_save in H. rewrite Hk in H. simpl in H.
  assert (Hk0 : (k =? 0) = false).
  { apply Z.eqb_neq. pose proof (next_pk_pos (order_ids (db w))). fold k in H0. lia. }
  rewrite Hk0 in H.
  assert (Horders : orders (db we) = orders (db w) ++ [o1]).
  { rewrite <- Hde, <- Hdc, Hdb. reflexivity. }
  assert (Hfresh : ~ In k (order_ids (db w))) by apply next_pk_fresh.
  assert (Hold : forall o, In o (orders (db w)) -> has_pk k o = false).
  { intros o Ho. destruct (has_pk k o) eqn:E; [|reflexivity].
    exfalso. apply Hfresh. apply has_pk_order_ids.
    apply existsb_exists. eauto. }
  apply Model_save_update with (k := k) in H; [|reflexivity|].
  2:{ rewrite Horders, existsb_app. simpl. unfold has_pk at 2. rewrite Hk, Z.eqb_refl.
      now rewrite orb_true_r. }
  destruct H as (Horder & Hd1 & Hs1).
  assert (Hpk : o_pk order = Some k) by (now subst order).
  exists k. split; [assumption|]. split; [assumption|].
  split.
  { eapply same_session_trans; [exact Hsa|].
    eapply same_session_trans; [exact Hsb|].
    eapply same_session_trans; [exact Hsc|].
    eapply same_session_trans; [exact Hse|]. exact Hs1. }
  split.
  { rewrite Hd1. simpl. rewrite Horders, map_app. simpl.
    unfold has_pk at 2. rewrite Hk, Z.eqb_refl. f_equal.
    rewrite <- (map_id (orders (db w))) at 2.
    apply map_ext_in. intros o Ho. now rewrite (Hold o Ho). }
  split.
  { rewrite (@products_of_ext k (db we) (db w1)).
    - subst order. simpl. now rewrite <- Hprods, Hde.
    - now rewrite Hd1.
    - now rewrite Hd1. }
  split; [subst order o1; reflexivity|].
  split; [subst order o1; reflexivity|].
  rewrite Hd1. simpl. rewrite <- Hde, <- Hdc, Hdb. simpl. auto.
Qed.

(** ** Actions that leave the tables alone *)

Lemma keeps_db_read A (f : DB -> Outcome A) : keeps_db (read f).
Proof. intros w r w'. apply read_db. Qed.

Lemma keeps_db_lift A (o : Outcome A) : keeps_db (lift o).
Proof. intros w r w' E. unfold lift in E. now inversion E. Qed.

Lemma keeps_db_ret A (a : A) : keeps_db (ret a).
Proof. intros w r w' E. unfold ret in E. now inversion E. Qed.

Lemma keeps_db_bind A B (c : Action A) (f : A -> Action B) :
  keeps_db c -> (forall a, keeps_db (f a)) -> keeps_db (bind c f).
Proof.
  intros Hc Hf w r w' E. unfold bind in E.
  destruct (c w) as [[a|e] w1] eqn:E1.
  - apply Hf in E. apply Hc in E1. congruence.
  - inversion E; subst. now apply Hc in E1.
Qed.

Lemma keeps_db_resolve_customer i : keeps_db (resolve_customer i).
Proof.
  intros w r w' E. unfold resolve_customer, except_DoesNotExist in E.
  set (c := customer <- Customer_get i ;; ret (inr customer)) in E.
  assert (Hc : keeps_db c).
  { apply keeps_db_bind.
    - unfold Customer_get. apply keeps_db_bind; [apply keeps_db_lift|].
      intros k. apply keeps_db_read.
    - intros a. apply keeps_db_ret. }
  destruct (c w) as [[a|e] w1] eqn:E1.
  - inversion E; subst. now apply Hc in E1.
  - apply Hc in E1. destruct e; inversion E; subst; assumption.
Qed.

(** A transaction that ends in an exception leaves no trace in the
    tables. *)
Lemma atomic_Raise A (body : Action A) w e w' :
  atomic body w = (Raise e, w') -> db w' = db w.
Proof.
  unfold atomic.
  destruct (body (set_atomic true false w)) as [[a|e0] w1].
  - destruct (needs_rollback w1); [discriminate|].
    destruct (hd false (faults w1)); [|discriminate].
    intros E. now inversion E.
  - intros E. now inversion E.
Qed.

Lemma atomic_Return A (body : Action A) w a w' :
  atomic body w = (Return a, w') ->
  exists w1, body (set_atomic true false w) = (Return a, w1)
             /\ db w' = if needs_rollback w1 then db w else db w1.
Proof.
  unfold atomic.
  destruct (body (set_atomic true false w)) as [[a0|e0] w1]; [|discriminate].
  destruct (needs_rollback w1) eqn:N.
  - intros E. inversion E; subst. exists w1. rewrite N. auto.
  - destruct (hd false (faults w1)); [discriminate|].
    intros E. inversion E; subst. exists w1. rewrite N. auto.
Qed.

(** ** The paths of [CreateOrder.mutate] *)

(** What [CreateOrder.mutate] went through when it reports success. *)
Lemma CreateOrder_success input w r w' :
  CreateOrder_mutate input w = (Return r, w') ->
  success r = true ->
  exists k customer ks wq order w1,
    to_pk (oi_customer_id input) = Return k
    /\ get_by_id c_id (customers (db w)) k = Return customer
    /\ prep_id_in (oi_product_ids input) = Return ks
    /\ List.length (Product_id_in ks (db w))
       = List.length (oi_product_ids input)
    /\ db wq = db w
    /\ create_order_block customer
         (sum (List.map p_price (Product_id_in ks (db w))))
         (oi_order_date input) (Product_id_in ks (db w))
         (set_atomic true false wq) = (Return order, w1)
    /\ db w' = db w1
    /\ r = mkResult (Some order) msg_order_created true.
Proof.
  unfold CreateOrder_mutate, try_except. intros H Hs.
  match type of H with
  | match ?c w with _ => _ end = _ => destruct (c w) as [[r0|e] w0] eqn:E
  end.
  2:{ unfold ret in H. inversion H; subst. discriminate. }
  inversion H; subst r0 w0; clear H.
  unfold CreateOrder_try in E.
  apply bind_Return in E. destruct E as (found & wa & Hres & E).
  assert (Hda : db wa = db w) by (eapply keeps_db_resolve_customer; eassumption).
  assert (Hcust : exists k customer,
             found = inr customer
             /\ to_pk (oi_customer_id input) = Return k
             /\ get_by_id c_id (customers (db w)) k = Return customer).
  { destruct found as [refusal|customer].
    - apply ret_Return in E. destruct E as [<- _].
      unfold resolve_customer, except_DoesNotExist in Hres.
      match type of Hres with
      | match ?c w with _ => _ end = _ => destruct (c w) as [[x|e] wx] eqn:Ex
      end.
      + apply bind_Return in Ex. destruct Ex as (cu & wy & _ & Ex).
        apply ret_Return in Ex. destruct Ex as [<- _]. inversion Hres.
      + destruct e; inversion Hres; subst; discriminate.
    - unfold resolve_customer, except_DoesNotExist in Hres.
      match type of Hres with
      | match ?c w with _ => _ end = _ => destruct (c w) as [[x|e] wx] eqn:Ex
      end.
      2:{ destruct e; inversion Hres. }
      inversion Hres; subst x wx; clear Hres.
      apply bind_Return in Ex. destruct Ex as (cu & wy & Hget & Ex).
      apply ret_Return in Ex. destruct Ex as [Ecu _]. inversion Ecu; subst cu.
      unfold Customer_get in Hget.
      apply bind_Return in Hget. destruct Hget as (k & wz & Hk & Hget).
      unfold lift in Hk. inversion Hk; subst wz.
      apply statement_ok in Hget. destruct Hget as (Eg & _).
      inversion Eg. exists k, customer. auto. }
  destruct Hcust as (k & customer & -> & Hk & Hget).
  destruct (oi_product_ids input) as [|i0 ids] eqn:Eids.
  { apply ret_Return in E. destruct E as [<- _]. discriminate. }
  rewrite <- Eids in *.
  apply bind_Return in E. destruct E as (ks & wb & Hprep & E).
  unfold lift in Hprep. inversion Hprep; subst wb. clear Hprep.
  apply bind_Return in E. destruct E as (prods & wc & Hread & E).
  assert (Hdc : db wc = db wa) by (eapply read_db; eassumption).
  apply statement_ok in Hread. destruct Hread as (Er & _).
  injection Er as Er _. rewrite Hda in Er. subst prods.
  destruct (Nat.eqb (List.length (Product_id_in ks (db w)))
                    (List.length (oi_product_ids input))) eqn:Elen; simpl in E.
  2:{ apply ret_Return in E. destruct E as [<- _]. discriminate. }
  apply Nat.eqb_eq in Elen.
  apply bind_Return in E. destruct E as (order & wd & Hat & E).
  apply ret_Return in E. destruct E as [<- <-].
  apply atomic_Return in Hat. destruct Hat as (w1 & Hblock & Hdb).
  pose proof Hblock as Hspec. apply create_order_block_spec in Hspec.
  destruct Hspec as (k' & _ & _ & Hsame & _).
  destruct Hsame as (_ & _ & Hnr). simpl in Hnr. rewrite Hnr in Hdb.
  exists k, customer, ks, wc, order, w1.
  repeat split; try assumption; try congruence.
Qed.

(** However the body of [CreateOrder.mutate] ends, either it reports
    success or the tables are as they were. *)
Lemma CreateOrder_try_db input w res w0 :
  CreateOrder_try input w = (res, w0) ->
  match res with
  | Return r => success r = true \/ db w0 = db w
  | Raise _ => db w0 = db w
  end.
Proof.
  unfold CreateOrder_try. unfold bind at 1.
  destruct (resolve_customer (oi_customer_id input) w) as [[found|e] wa] eqn:Eres.
  2:{ intros E. inversion E; subst.
      eapply keeps_db_resolve_customer; eassumption. }
  assert (Hda : db wa = db w)
    by (eapply keeps_db_resolve_customer; eassumption).
  destruct found as [refusal|customer].
  { intros E. unfold ret in E. inversion E; subst. now right. }
  destruct (oi_product_ids input) as [|i0 ids] eqn:Eids.
  { intros E. unfold ret in E. inversion E; subst. now right. }
  rewrite <- Eids. unfold bind at 1, lift at 1.
  destruct (prep_id_in (oi_product_ids input)) as [ks|e].
  2:{ intros E. inversion E; subst. assumption. }
  unfold bind at 1.
  match goal with
  | |- context [read ?f wa] => destruct (read f wa) as [[prods|e] wc] eqn:Eread
  end.
  2:{ intros E. inversion E; subst. apply read_db in Eread. congruence. }
  apply read_db in Eread.
  destruct (negb _).
  { intros E. unfold ret in E. inversion E; subst. right. congruence. }
  unfold bind.
  match goal with
  | |- context [atomic ?b wc] => destruct (atomic b wc) as [[order|e] wd] eqn:Eat
  end.
  - intros E. unfold ret in E. inversion E; subst. now left.
  - intros E. inversion E; subst. apply atomic_Raise in Eat. congruence.
Qed.

(** ** Counting the products that an [id__in] lookup finds *)

Lemma prep_id_in_In ids : forall ks i,
  prep_id_in ids = Return ks -> In i ids ->
  (List.length ks <= List.length ids)%nat
  /\ ((i = None /\ (List.length ks < List.length ids)%nat)
      \/ exists k, i = Some (IdInt k) /\ In k ks).
Proof.
  induction ids as [|j ids IH]; intros ks i Hp Hi; [contradiction|].
  assert (Hlen : forall ks', prep_id_in ids = Return ks' ->
                             (List.length ks' <= List.length ids)%nat).
  { clear. induction ids as [|j ids IH]; simpl; intros ks' H.
    - inversion H. simpl. lia.
    - destruct j as [[n|]|]; simpl in H.
      + destruct (prep_id_in ids) as [ks0|]; [|discriminate].
        inversion H. simpl. specialize (IH ks0 eq_refl). lia.
      + discriminate.
      + specialize (IH ks' H). lia. }
  simpl in Hp. destruct j as [[n|]|]; simpl in Hp.
  - destruct (prep_id_in ids) as [ks0|] eqn:E; [|discriminate].
    inversion Hp; subst ks. clear Hp. simpl.
    pose proof (Hlen ks0 eq_refl).
    split; [lia|].
    destruct Hi as [<-|Hi].
    + right. exists n. split; [reflexivity | now left].
    + destruct (@IH ks0 i eq_refl Hi) as (_ & [[-> Hlt]|(k & -> & Hk)]).
      * left. split; [reflexivity | lia].
      * right. exists k. split; [reflexivity | now right].
  - discriminate.
  - pose proof (Hlen ks Hp). simpl. split; [lia|].
    destruct Hi as [<-|Hi].
    + left. split; [reflexivity | lia].
    + destruct (@IH ks i Hp Hi) as (_ & [[-> Hlt]|(k & -> & Hk)]).
      * left. split; [reflexivity | lia].
      * right. exists k. auto.
Qed.

Lemma NoDup_map_filter A (f : A -> Z) (g : A -> bool) l :
  NoDup (List.map f l) -> NoDup (List.map f (filter g l)).
Proof.
  induction l as [|a l IH]; simpl; intros H; [constructor|].
  inversion H as [|x xs Hn Hd]; subst.
  destruct (g a); simpl; [|auto].
  constructor; [|auto].
  intros Hin. apply Hn. apply in_map_iff in Hin.
  destruct Hin as (b & Eb & Hb). apply filter_In in Hb.
  apply in_map_iff. exists b. tauto.
Qed.

Lemma found_le_asked ks d :
  NoDup (List.map p_id (products d)) ->
  (List.length (Product_id_in ks d) <= List.length ks)%nat.
Proof.
  intros Hpk. unfold Product_id_in.
  rewrite <- (length_map p_id).
  apply NoDup_incl_length; [now apply NoDup_map_filter|].
  intros k Hk. apply in_map_iff in Hk. destruct Hk as (p & <- & Hp).
  apply filter_In in Hp. now apply mem_In.
Qed.

Lemma found_lt_asked ks d k :
  NoDup (List.map p_id (products d)) ->
  In k ks -> (forall p, In p (products d) -> p_id p <> k) ->
  (List.length (Product_id_in ks d) < List.length ks)%nat.
Proof.
  intros Hpk Hk Hno. unfold Product_id_in.
  rewrite <- (length_map p_id).
  apply Nat.le_lt_trans with (List.length (remove Z.eq_dec k ks)).
  - apply NoDup_incl_length; [now apply NoDup_map_filter|].
    intros j Hj. apply in_map_iff in Hj. destruct Hj as (p & <- & Hp).
    apply filter_In in Hp. destruct Hp as [Hp Hm].
    apply in_in_remove; [now apply Hno | now apply mem_In].
  - now apply remove_length_lt.
Qed.

Lemma unresolved_id_is_counted ids ks d i :
  NoDup (List.map p_id (products d)) ->
  prep_id_in ids = Return ks ->
  In i ids -> ~ resolves d i ->
  (List.length (Product_id_in ks d) < List.length ids)%nat.
Proof.
  intros Hpk Hp Hi Hno.
  destruct (@prep_id_in_In ids ks i Hp Hi) as (Hle & [[-> Hlt]|(k & -> & Hk)]).
  - pose proof (@found_le_asked ks d Hpk). lia.
  - assert (List.length (Product_id_in ks d) < List.length ks)%nat; [|lia].
    apply found_lt_asked with (k := k); try assumption.
    intros p Hp' E. apply Hno. exists k, p. auto.
Qed.

(** ** The mutations always hand back a result *)

Lemma try_except_returns A (c : Action A) (h : Exception -> A) w :
  exists r w', try_except c (fun e => ret (h e)) w = (Return r, w').
Proof.
  unfold try_except. destruct (c w) as [[a|e] w1]; unfold ret; eauto.
Qed.

(** A store that fails the first statement it is sent. *)
Example a_store_fault_becomes_a_message :
  fst (CreateProduct_mutate (mkProductInput (lit "Bolt") (Finite (3 # 4)) None)
         (mkWorld demo_db [true] demo_clock 0 false false))
  = Return (failure (lit "Error creating product: database error")).
Proof. reflexivity. Qed.

(** C9. Each of the four mutations, on every input and in every world (any
    store, any faults to come, any state of the transaction), ends with a
    result object; no exception leaves it. *)
Theorem mutations_return_a_result isdecimal (w : World) :
  (forall input, exists r w',
      CreateCustomer_mutate isdecimal input w = (Return r, w'))
  /\ (forall input, exists r w',
         BulkCreateCustomers_mutate isdecimal input w = (Return r, w'))
  /\ (forall input, exists r w',
         CreateProduct_mutate input w = (Return r, w'))
  /\ (forall input, exists r w',
         CreateOrder_mutate input w = (Return r, w')).
Proof.
  repeat split; intros input.
  - apply try_except_returns.
  - unfold BulkCreateCustomers_mutate.
    apply (@try_except_returns _ _
             (fun e => mkBulkResult []
                         [lit "Transaction failed: " ++ str_of_exception e]
                         false)).
  - apply try_except_returns.
  - apply try_except_returns.
Qed.

(** ** Creating an order *)

(** What a successful [createOrder] leaves behind: the order handed back is
    the one row of its primary key, and its total is the sum over the
    products joined to it.  It was created at the instant of its
    [order_date]. *)
Lemma CreateOrder_stored input w r w' :
  CreateOrder_mutate input w = (Return r, w') ->
  success r = true ->
  exists order k,
    value r = Some order
    /\ o_pk order = Some k
    /\ In order (orders (db w'))
    /\ (forall o, In o (orders (db w')) -> has_pk k o = true -> o = order)
    /\ o_total_amount order
       = sum (List.map p_price (products_of k (db w')))
    /\ o_created_at order = Some (o_order_date order).
Proof.
  intros H Hs.
  destruct (@CreateOrder_success _ _ _ _ H Hs)
    as (kc & customer & ks & wq & order & w1 & _ & _ & _ & _ & Hq & Hblock
        & Hdb & ->).
  apply create_order_block_spec in Hblock.
  destruct Hblock as (k & Hpk & Hfresh & _ & Horders & Htotal & _ & Hdate & _).
  simpl in Horders, Hfresh. rewrite Hq in Horders, Hfresh.
  exists order, k. rewrite Hdb.
  split; [reflexivity|]. split; [assumption|].
  split; [rewrite Horders; apply in_or_app; right; now left|].
  split; [|split; assumption].
  intros o Ho Hk. rewrite Horders in Ho. apply in_app_or in Ho.
  destruct Ho as [Ho|[<-|[]]]; [|reflexivity].
  exfalso. apply Hfresh. apply has_pk_order_ids. apply existsb_exists. eauto.
Qed.

(** C1. When [createOrder] reports success, the order that it persisted
    (the row under the primary key of the order handed back) carries as
    [total_amount] the exact sum of the prices of the products that are
    associated with it in the store as the mutation leaves it. *)
Theorem created_order_total_is_sum_of_product_prices input w r w' :
  CreateOrder_mutate input w = (Return r, w') ->
  success r = true ->
  exists order k,
    value r = Some order
    /\ o_pk order = Some k
    /\ In order (orders (db w'))
    /\ (forall o, In o (orders (db w')) -> has_pk k o = true -> o = order)
    /\ o_total_amount order
       = sum (List.map p_price (products_of k (db w'))).
Proof.
  intros H Hs.
  destruct (@CreateOrder_stored _ _ _ _ H Hs)
    as (order & k & Hv & Hpk & Hin & Huniq & Htot & _).
  exists order, k. auto.
Qed.

(** The fourth example scenario: prices 10.00 and 5.50 give 15.50. *)
Example two_widgets_cost_1550 :
  exists order w',
    CreateOrder_mutate two_widgets demo_world
    = (Return (mkResult (Some order) msg_order_created true), w')
    /\ o_total_amount order = 1550
    /\ orders (db w') = [order]
    /\ order_products (db w') = [(1, 1); (1, 2)].
Proof.
  eexists. eexists. split; [vm_compute; reflexivity|].
  repeat split; vm_compute; reflexivity.
Qed.

Lemma created_order_total_witness :
  exists r w',
    CreateOrder_mutate two_widgets demo_world = (Return r, w')
    /\ success r = true
    /\ exists order k,
        value r = Some order
        /\ o_pk order = Some k
        /\ In order (orders (db w'))
        /\ (forall o, In o (orders (db w')) -> has_pk k o = true -> o = order)
        /\ o_total_amount order
           = sum (List.map p_price (products_of k (db w'))).
Proof.
  eexists. eexists.
  split; [vm_compute; reflexivity|].
  split; [reflexivity|].
  apply (@created_order_total_is_sum_of_product_prices two_widgets demo_world);
    reflexivity.
Defined.

(** C2. If some id of [product_ids] names no product of the store (the
    product table having a primary key), then [createOrder] reports
    [success = false] and the tables are exactly as they were: no order
    row, no association. *)
Theorem unknown_product_id_fails_and_changes_nothing input w r w' :
  product_pk (db w) ->
  (exists i, In i (oi_product_ids input) /\ ~ resolves (db w) i) ->
  CreateOrder_mutate input w = (r, w') ->
  exists res, r = Return res /\ success res = false /\ db w' = db w.
Proof.
  intros Hpk (i & Hi & Hno) H.
  destruct (@try_except_returns _ (CreateOrder_try input)
              (fun e => failure (lit "Error creating order: "
                                   ++ str_of_exception e)) w)
    as (res & w0 & E).
  change (CreateOrder_mutate input w = (Return res, w0)) in E. rewrite H in E.
  inversion E; subst r w0. clear E.
  exists res. split; [reflexivity|].
  assert (Hs : success res = false).
  { destruct (success res) eqn:Hs; [|reflexivity]. exfalso.
    destruct (@CreateOrder_success _ _ _ _ H Hs)
      as (kc & customer & ks & wq & order & w1 & _ & _ & Hprep & Hlen & _).
    pose proof (@unresolved_id_is_counted _ ks (db w) i Hpk Hprep Hi Hno).
    lia. }
  split; [assumption|].
  unfold CreateOrder_mutate, try_except in H.
  destruct (CreateOrder_try input w) as [[r0|e] w0] eqn:E.
  - apply CreateOrder_try_db in E. inversion H; subst.
    destruct E as [E|E]; [congruence | assumption].
  - apply CreateOrder_try_db in E. unfold ret in H. now inversion H; subst.
Qed.

(** The fifth example scenario. *)
Lemma unknown_product_id_witness :
  product_pk (db demo_world)
  /\ (exists i, In i (oi_product_ids widget_and_ghost)
                /\ ~ resolves (db demo_world) i)
  /\ exists res,
      fst (CreateOrder_mutate widget_and_ghost demo_world) = Return res
      /\ success res = false
      /\ db (snd (CreateOrder_mutate widget_and_ghost demo_world))
         = db demo_world.
Proof.
  assert (Hpk : product_pk (db demo_world)).
  { unfold product_pk. simpl. repeat constructor; simpl; intuition discriminate. }
  assert (Hghost : exists i, In i (oi_product_ids widget_and_ghost)
                             /\ ~ resolves (db demo_world) i).
  { exists (Some (IdInt 99)). split; [simpl; auto|].
    intros (k & p & E & Hp & Hk). inversion E; subst k.
    simpl in Hp. destruct Hp as [<-|[<-|[<-|[]]]]; discriminate. }
  split; [exact Hpk|]. split; [exact Hghost|].
  apply (@unknown_product_id_fails_and_changes_nothing
           widget_and_ghost demo_world _ _ Hpk Hghost).
  apply surjective_pairing.
Defined.



(** C3. The check of line 258 compares the number of products found with
    the length of the list [product_ids], not with the number of distinct
    ids in it.  Both ids of [widget_twice] name the product 1 of the store,
    so one product is found for a list of two: the request is turned down
    as having invalid product ids, and no order is created. *)
Theorem repeated_valid_id_is_rejected :
  (forall i, In i (oi_product_ids widget_twice) -> resolves demo_db i)
  /\ List.length (Product_id_in [1; 1] demo_db) = 1%nat
  /\ CreateOrder_mutate widget_twice demo_world
     = (Return (failure msg_invalid_products),
        mkWorld demo_db [] demo_clock 0 false false).
Proof.
  split; [|split; reflexivity].
  intros i [<-|[<-|[]]]; exists 1, widget_a; simpl; auto.
Qed.



(** C4. [Order.order_date] is declared [auto_now_add=True], so the insert
    sets it to the time of the insert and the value that line 273 passes to
    [Order.objects.create] is lost.  The request [backdated] asks for the
    last day of 1999; the order is created, and its [order_date] is the
    time of its creation. *)
Theorem supplied_order_date_is_overwritten :
  oi_order_date backdated = Some last_century
  /\ exists order w',
      CreateOrder_mutate backdated demo_world
      = (Return (mkResult (Some order) msg_order_created true), w')
      /\ orders (db w') = [order]
      /\ o_order_date order = demo_clock 0
      /\ o_created_at order = Some (demo_clock 0)
      /\ o_order_date order <> last_century.
Proof.
  split; [reflexivity|].
  eexists. eexists. repeat split; try reflexivity. discriminate.
Qed.

(** The date of the request plays no part in what the transaction does. *)
Lemma supplied_order_date_is_ignored customer total d1 d2 ps :
  create_order_block customer total (Some d1) ps
  = create_order_block customer total (Some d2) ps.
Proof. reflexivity. Qed.

(** With or without a date in the request, the order that is created has
    the time of its creation as its date. *)
Lemma order_date_is_creation_time input w r w' :
  CreateOrder_mutate input w = (Return r, w') ->
  success r = true ->
  exists order,
    value r = Some order /\ In order (orders (db w'))
    /\ o_created_at order = Some (o_order_date order).
Proof.
  intros H Hs.
  destruct (@CreateOrder_stored _ _ _ _ H Hs)
    as (order & k & Hv & _ & Hin & _ & _ & Hdate).
  exists order. auto.
Qed.

(** C10. Saving an order that has no primary key yet writes a row whose
    [total_amount] is 0, whatever total the instance was built with.  The
    total that [createOrder] computes before it opens the transaction has
    no effect on what the transaction does, and the total of the order it
    persists is the sum that [update_total] computes over the products
    joined to the order. *)
Theorem new_order_is_saved_with_total_zero force_insert self w row w' :
  not_pk (o_pk self) = true ->
  Order_save force_insert self w = (Return row, w') ->
  (o_total_amount row = 0 /\ In row (orders (db w')))
  /\ (forall customer t1 t2 date products,
         create_order_block customer t1 date products
         = create_order_block customer t2 date products)
  /\ (forall input w0 r w1,
         CreateOrder_mutate input w0 = (Return r, w1) ->
         success r = true ->
         exists order k,
           value r = Some order /\ o_pk order = Some k
           /\ In order (orders (db w1))
           /\ o_total_amount order
              = sum (List.map p_price (products_of k (db w1)))).
Proof.
  intros Hnew H. split; [|split].
  - unfold Order_save in H. rewrite Hnew in H.
    unfold Model_save in H.
    apply bind_Return in H. destruct H as (t & wt & Ht & H).
    apply now_ok in Ht. destruct Ht as (_ & Hd & _).
    apply statement_ok in H. destruct H as (E & _). simpl in E.
    destruct (o_pk self) as [k|].
    + destruct (existsb (has_pk k) (orders (db wt))) eqn:Hex.
      * destruct force_insert; [discriminate|].
        injection E as <- <-. split; [reflexivity|]. simpl.
        apply existsb_exists in Hex. destruct Hex as (o & Ho & Hk).
        apply in_map_iff. exists o. rewrite Hk. auto.
      * injection E as <- <-. split; [reflexivity|]. simpl.
        apply in_or_app. right. now left.
    + injection E as <- <-. split; [reflexivity|]. simpl.
      apply in_or_app. right. now left.
  - reflexivity.
  - intros input w0 r w1 Hrun Hs.
    destruct (@CreateOrder_stored _ _ _ _ Hrun Hs)
      as (order & k & Hv & Hpk & Hin & _ & Htot & _).
    exists order, k. auto.
Qed.

(** An instance built with a total of 99.99 is inserted with 0.00. *)
Lemma new_order_total_zero_witness :
  let self := mkOrder None 1 9999 last_century None None in
  let run := Order_save true self demo_world in
  not_pk (o_pk self) = true
  /\ (exists row, fst run = Return row
                  /\ o_total_amount row = 0
                  /\ In row (orders (db (snd run)))).
Proof.
  split; [reflexivity|].
  eexists. split; [reflexivity|].
  apply (@new_order_is_saved_with_total_zero true
           (mkOrder None 1 9999 last_century None None) demo_world);
    reflexivity.
Defined.

(** ** What the patterns accept *)

Section Shapes.

Variable isdecimal : char -> bool.

Lemma Digit_step pos s k :
  matchk isdecimal Digit pos s k = true <->
  exists x t, s = x :: t /\ isdecimal x = true /\ k (S pos) t = true.
Proof.
  simpl. destruct s as [|x t].
  - split; [discriminate | intros (x & t & E & _); discriminate].
  - rewrite andb_true_iff. split.
    + intros [Hx Hk]. exists x, t. auto.
    + intros (x' & t' & E & Hx & Hk). inversion E; subst. auto.
Qed.

Lemma digits_then_S m pos x t k :
  digits_then isdecimal (S m) pos (x :: t) k <->
  isdecimal x = true /\ digits_then isdecimal m (S pos) t k.
Proof.
  unfold digits_then. simpl. rewrite andb_true_iff.
  replace (pos + S m)%nat with (S (pos + m)) by lia.
  split; intros H; repeat split; try tauto; lia.
Qed.

Lemma rep_upto_Digit n : forall pos s k,
  rep_upto (matchk isdecimal Digit) n pos s k = true <->
  exists m, (m <= n)%nat /\ digits_then isdecimal m pos s k.
Proof.
  induction n as [|n IH]; intros pos s k.
  - simpl. split.
    + intros H. exists 0%nat. unfold digits_then. simpl.
      rewrite Nat.add_0_r. repeat split; auto; lia.
    + intros (m & Hm & _ & _ & Hk). assert (m = 0)%nat by lia. subst.
      simpl in Hk. now rewrite Nat.add_0_r in Hk.
  - cbn [rep_upto]. rewrite orb_true_iff, Digit_step. split.
    + intros [(x & t & -> & Hx & H)|H].
      * apply IH in H. destruct H as (m & Hm & H).
        exists (S m). split; [lia|]. apply digits_then_S. auto.
      * exists 0%nat. unfold digits_then. simpl.
        rewrite Nat.add_0_r. repeat split; auto; lia.
    + intros ([|m] & Hm & H).
      * right. destruct H as (_ & _ & H). simpl in H.
        now rewrite Nat.add_0_r in H.
      * left. destruct s as [|x t].
        { destruct H as (H & _). simpl in H. lia. }
        apply digits_then_S in H. destruct H as [Hx H].
        exists x, t. repeat split; try assumption.
        apply IH. exists m. split; [lia | assumption].
Qed.

Lemma rep_from_Digit lo extra : forall pos s k,
  rep_from (matchk isdecimal Digit) lo extra pos s k = true <->
  exists m, (lo <= m <= lo + extra)%nat /\ digits_then isdecimal m pos s k.
Proof.
  induction lo as [|lo IH]; intros pos s k.
  - cbn [rep_from]. rewrite rep_upto_Digit. split.
    + intros (m & Hm & H). exists m. split; [lia | assumption].
    + intros (m & Hm & H). exists m. split; [lia | assumption].
  - cbn [rep_from]. rewrite Digit_step. split.
    + intros (x & t & -> & Hx & H). apply IH in H.
      destruct H as (m & Hm & H). exists (S m). split; [lia|].
      apply digits_then_S. auto.
    + intros ([|m] & Hm & H); [lia|].
      destruct s as [|x t].
      { destruct H as (H & _). simpl in H. lia. }
      apply digits_then_S in H. destruct H as [Hx H].
      exists x, t. repeat split; try assumption.
      apply IH. exists m. split; [lia | assumption].
Qed.

Lemma digits_then_split m pos s k :
  digits_then isdecimal m pos s k <->
  exists ds rest, s = ds ++ rest /\ List.length ds = m
                  /\ forallb isdecimal ds = true
                  /\ k (pos + m)%nat rest = true.
Proof.
  unfold digits_then. split.
  - intros (Hm & Hd & Hk). exists (firstn m s), (skipn m s).
    rewrite firstn_skipn, firstn_length_le by assumption. auto.
  - intros (ds & rest & -> & <- & Hd & Hk).
    rewrite length_app, firstn_app, Nat.sub_diag, firstn_all, firstn_O,
      app_nil_r, skipn_app, Nat.sub_diag, skipn_all, skipn_O.
    repeat split; try assumption. lia.
Qed.

(** [^\+\d{1,3}\d{9,10}$] accepts a plus sign and ten to thirteen digits,
    and a newline after them if there is one. *)
Lemma international_shape s :
  re_match isdecimal (anchored international) s = true <->
  exists ds tail,
    s = plus_sign :: ds ++ tail
    /\ forallb isdecimal ds = true
    /\ (10 <= List.length ds <= 13)%nat
    /\ at_eol tail = true.
Proof.
  unfold re_match, anchored, international. cbn [matchk Nat.eqb andb].
  destruct s as [|x t].
  { split; [discriminate | intros (ds & tail & E & _); discriminate]. }
  rewrite andb_true_iff, N.eqb_eq, rep_from_Digit.
  split.
  - intros (-> & m1 & Hm1 & H1).
    apply digits_then_split in H1.
    destruct H1 as (ds1 & rest1 & -> & Hl1 & Hd1 & H1).
    apply rep_from_Digit in H1. destruct H1 as (m2 & Hm2 & H2).
    apply digits_then_split in H2.
    destruct H2 as (ds2 & tail & -> & Hl2 & Hd2 & H2).
    rewrite andb_true_r in H2.
    exists (ds1 ++ ds2), tail.
    rewrite <- app_assoc, forallb_app, Hd1, Hd2, length_app.
    repeat split; try assumption; lia.
  - intros (ds & tail & E & Hd & Hlen & Htail).
    inversion E; subst x t. clear E. split; [reflexivity|].
    set (m1 := (if Nat.leb (List.length ds) 12
                then List.length ds - 9 else 3)%nat).
    assert (Hm1 : (1 <= m1 <= 3 /\ 9 <= List.length ds - m1 <= 10)%nat).
    { subst m1. destruct (Nat.leb (List.length ds) 12) eqn:E.
      - apply Nat.leb_le in E. lia.
      - apply Nat.leb_gt in E. lia. }
    exists m1. split; [lia|].
    apply digits_then_split.
    rewrite <- (firstn_skipn m1 ds) in Hd. rewrite forallb_app in Hd.
    apply andb_true_iff in Hd. destruct Hd as [Hd1 Hd2].
    exists (firstn m1 ds), (skipn m1 ds ++ tail).
    rewrite app_assoc, firstn_skipn, firstn_length_le by lia.
    repeat split; try assumption.
    apply rep_from_Digit. exists (List.length ds - m1)%nat. split; [lia|].
    apply digits_then_split. exists (skipn m1 ds), tail.
    rewrite length_skipn, Htail. auto.
Qed.

(** [^\d{3}-\d{3}-\d{4}$] accepts three digits, a hyphen, three digits, a
    hyphen and four digits, and a newline after them if there is one. *)
Lemma dashed_shape s :
  re_match isdecimal (anchored dashed) s = true <->
  exists d1 d2 d3 tail,
    s = d1 ++ hyphen :: d2 ++ hyphen :: d3 ++ tail
    /\ List.length d1 = 3%nat /\ List.length d2 = 3%nat
    /\ List.length d3 = 4%nat
    /\ forallb isdecimal (d1 ++ d2 ++ d3) = true
    /\ at_eol tail = true.
Proof.
  unfold re_match, anchored, dashed. cbn [matchk Nat.eqb andb].
  rewrite rep_from_Digit. split.
  - intros (m1 & Hm1 & H1). apply digits_then_split in H1.
    destruct H1 as (d1 & [|x r1] & -> & Hl1 & Hd1 & H1); [discriminate|].
    apply andb_true_iff in H1. destruct H1 as [Hx H2].
    apply N.eqb_eq in Hx. subst x.
    apply rep_from_Digit in H2. destruct H2 as (m2 & Hm2 & H2).
    apply digits_then_split in H2.
    destruct H2 as (d2 & [|y r2] & -> & Hl2 & Hd2 & H2); [discriminate|].
    apply andb_true_iff in H2. destruct H2 as [Hy H3].
    apply N.eqb_eq in Hy. subst y.
    apply rep_from_Digit in H3. destruct H3 as (m3 & Hm3 & H3).
    apply digits_then_split in H3.
    destruct H3 as (d3 & tail & -> & Hl3 & Hd3 & H3).
    rewrite andb_true_r in H3.
    exists d1, d2, d3, tail. rewrite !forallb_app, Hd1, Hd2, Hd3.
    repeat split; try assumption; lia.
  - intros (d1 & d2 & d3 & tail & -> & Hl1 & Hl2 & Hl3 & Hd & Htail).
    rewrite !forallb_app, !andb_true_iff in Hd. destruct Hd as (Hd1 & Hd2 & Hd3).
    exists 3%nat. split; [lia|]. apply digits_then_split.
    exists d1, (hyphen :: d2 ++ hyphen :: d3 ++ tail).
    repeat split; try assumption.
    rewrite N.eqb_refl. cbn [andb].
    apply rep_from_Digit. exists 3%nat. split; [lia|].
    apply digits_then_split. exists d2, (hyphen :: d3 ++ tail).
    repeat split; try assumption.
    rewrite N.eqb_refl. cbn [andb].
    apply rep_from_Digit. exists 4%nat. split; [lia|].
    apply digits_then_split. exists d3, tail.
    rewrite Htail. auto.
Qed.

End Shapes.

(** ** The phone check *)

Lemma re_match_anchored_Alt isdecimal r1 r2 s :
  re_match isdecimal (anchored (Alt r1 r2)) s
  = re_match isdecimal (anchored r1) s || re_match isdecimal (anchored r2) s.
Proof. reflexivity. Qed.

Lemma phone_rejected_fits isdecimal phone :
  phone_rejected isdecimal phone
  = match phone with
    | Some (c :: s) => negb (fits_a_format isdecimal (c :: s))
    | _ => false
    end.
Proof.
  destruct phone as [[|c s]|]; reflexivity.
Qed.

Lemma existsb_emails e (cs : list Customer) :
  existsb (fun c => str_eqb (c_email c) e) cs
  = existsb (fun e' => str_eqb e' e) (List.map c_email cs).
Proof. induction cs as [|c cs IH]; simpl; [reflexivity | now rewrite IH]. Qed.

(** ** The bulk loop in a transaction with no fault to come *)

Lemma bulk_item_run isdecimal i x created errors d c n :
  let v := check isdecimal (List.map c_email (customers d)) x in
  exists d' n' cs,
    bulk_item isdecimal i x (created, errors) (mkWorld d [] c n true false)
    = (Return (created ++ cs, errors ++ complaints i [v]),
       mkWorld d' [] c n' true false)
    /\ customers d' = customers d ++ cs
    /\ List.map as_input cs = accepted [x] [v]
    /\ products d' = products d /\ orders d' = orders d
    /\ order_products d' = order_products d.
Proof.
  intros v. subst v. unfold check.
  unfold bulk_item, try_except, bind, Customer_email_exists, read, statement.
  unfold set_db, set_faults. simpl. rewrite <- existsb_emails.
  destruct (existsb (fun c0 => str_eqb (c_email c0) (ci_email x)) (customers d))
    eqn:Etaken.
  - exists d, n, []. simpl. rewrite !app_nil_r. repeat split.
  - rewrite phone_rejected_fits.
    assert (Hcreate :
      exists d' cs,
        Customer_create (ci_name x) (ci_email x) (ci_phone x)
          (mkWorld d [] c n true false)
        = (Return cs, mkWorld d' [] c (S n) true false)
        /\ customers d' = customers d ++ [cs]
        /\ as_input cs = x
        /\ products d' = products d /\ orders d' = orders d
        /\ order_products d' = order_products d).
    { unfold Customer_create, bind, now, statement. simpl.
      rewrite Etaken. eexists. eexists. split; [reflexivity|].
      destruct x. repeat split. }
    destruct Hcreate as (d' & cu & Hrun & Hc & Hin & Hp & Ho & Hop).
    destruct (ci_phone x) as [[|ch s]|] eqn:Ephone.
    + rewrite Hrun. exists d', (S n), [cu]. simpl. rewrite app_nil_r, Hin.
      repeat split; assumption.
    + destruct (fits_a_format isdecimal (ch :: s)); simpl.
      * rewrite Hrun. exists d', (S n), [cu]. simpl. rewrite app_nil_r, Hin.
        repeat split; assumption.
      * exists d, n, []. simpl. rewrite !app_nil_r. repeat split.
    + rewrite Hrun. exists d', (S n), [cu]. simpl. rewrite app_nil_r, Hin.
      repeat split; assumption.
Qed.

Lemma complaints_cons i v vs :
  complaints i (v :: vs) = complaints i [v] ++ complaints (S i) vs.
Proof. destruct v; reflexivity. Qed.

Lemma accepted_cons x rest v vs :
  accepted (x :: rest) (v :: vs) = accepted [x] [v] ++ accepted rest vs.
Proof. simpl. destruct (passes v); reflexivity. Qed.

Lemma bulk_loop_run isdecimal c : forall input i created errors d n,
  let vs := verdicts isdecimal (List.map c_email (customers d)) input in
  exists d' n' cs,
    bulk_loop isdecimal i input (created, errors)
              (mkWorld d [] c n true false)
    = (Return (created ++ cs, errors ++ complaints i vs),
       mkWorld d' [] c n' true false)
    /\ customers d' = customers d ++ cs
    /\ List.map as_input cs = accepted input vs
    /\ products d' = products d /\ orders d' = orders d
    /\ order_products d' = order_products d.
Proof.
  induction input as [|x rest IH]; intros i created errors d n vs.
  - exists d, n, []. simpl. rewrite !app_nil_r. repeat split.
  - subst vs. cbn [verdicts bulk_loop].
    set (v := check isdecimal (List.map c_email (customers d)) x).
    destruct (bulk_item_run isdecimal i x created errors d c n)
      as (d1 & n1 & cs1 & Hrun & Hc1 & Hin1 & Hp1 & Ho1 & Hop1).
    fold v in Hrun, Hin1.
    unfold bind at 1. rewrite Hrun.
    assert (Hemails :
      List.map c_email (customers d1)
      = if passes v then List.map c_email (customers d) ++ [ci_email x]
        else List.map c_email (customers d)).
    { rewrite Hc1, map_app. simpl in Hin1.
      destruct (passes v).
      - destruct cs1 as [|cu [|? ?]]; try discriminate.
        simpl in Hin1. injection Hin1 as <-. reflexivity.
      - destruct cs1; [|discriminate]. simpl. now rewrite app_nil_r. }
    rewrite <- Hemails.
    destruct (IH (S i) (created ++ cs1) (errors ++ complaints i [v]) d1 n1)
      as (d2 & n2 & cs2 & Hrun2 & Hc2 & Hin2 & Hp2 & Ho2 & Hop2).
    rewrite Hrun2. exists d2, n2, (cs1 ++ cs2).
    rewrite (complaints_cons i v
               (verdicts isdecimal (List.map c_email (customers d1)) rest)).
    rewrite accepted_cons, map_app, Hin1, Hin2, !app_assoc.
    repeat split; congruence.
Qed.

Lemma verdicts_length isdecimal : forall input emails,
  List.length (verdicts isdecimal emails input) = List.length input.
Proof.
  induction input as [|x rest IH]; intros emails; simpl; [reflexivity|].
  now rewrite IH.
Qed.

Lemma complaints_length : forall vs i,
  List.length (complaints i vs) = count_failed vs.
Proof.
  unfold count_failed.
  induction vs as [|v vs IH]; intros i; [reflexivity|].
  destruct v; simpl; now rewrite IH.
Qed.

Lemma accepted_length : forall input vs,
  List.length vs = List.length input ->
  List.length (accepted input vs) = count_passed vs.
Proof.
  unfold count_passed.
  induction input as [|x rest IH]; intros [|v vs] H; try discriminate;
    [reflexivity|].
  simpl in *. injection H as H. destruct (passes v); simpl; now rewrite IH.
Qed.

Lemma passed_and_failed vs :
  (count_passed vs + count_failed vs = List.length vs)%nat.
Proof.
  unfold count_passed, count_failed.
  induction vs as [|v vs IH]; [reflexivity|].
  simpl. destruct (passes v); simpl; lia.
Qed.

(** C7. A batch of [n] items of which [k] fail validation (each item being
    checked against the store as the items before it left it), run with no
    fault of the store: the result holds [k] error strings, one for each
    failed item and naming its position, and [n - k] customers, one for
    each item that passed, whatever failed before it; [success] tells
    whether [n - k] is positive; and the customers are in the store. *)
Theorem bulk_create_counts isdecimal input d c :
  let vs := verdicts isdecimal (List.map c_email (customers d)) input in
  let n := List.length input in
  let k := count_failed vs in
  exists r w',
    BulkCreateCustomers_mutate isdecimal input (calm d c) = (Return r, w')
    /\ List.length (b_errors r) = k
    /\ List.length (b_customers r) = (n - k)%nat
    /\ b_success r = Nat.ltb 0 (n - k)
    /\ b_errors r = complaints 0 vs
    /\ List.map as_input (b_customers r) = accepted input vs
    /\ customers (db w') = customers d ++ b_customers r.
Proof.
  intros vs n k.
  destruct (bulk_loop_run isdecimal c input 0 [] [] d 0)
    as (d' & n' & cs & Hrun & Hc & Hin & _).
  fold vs in Hrun, Hin. simpl in Hrun.
  assert (Hlen : List.length cs = (n - k)%nat).
  { rewrite <- (length_map as_input), Hin, accepted_length.
    - pose proof (passed_and_failed vs). subst n k.
      rewrite <- (verdicts_length isdecimal input
                    (List.map c_email (customers d))). fold vs. lia.
    - apply verdicts_length. }
  unfold BulkCreateCustomers_mutate, try_except, bind, atomic, calm.
  unfold set_atomic. simpl. rewrite Hrun. simpl.
  eexists. eexists. split; [reflexivity|]. simpl.
  rewrite Hlen. repeat split; try assumption.
  apply complaints_length.
Qed.

(** ** [CreateCustomer.mutate] when the email is free and nothing fails *)

Lemma CreateCustomer_run isdecimal input d c :
  existsb (fun cu => str_eqb (c_email cu) (ci_email input)) (customers d)
  = false ->
  fst (CreateCustomer_mutate isdecimal input (calm d c))
  = if phone_rejected isdecimal (ci_phone input)
    then Return (failure msg_phone_format)
    else Return (mkResult
                   (Some (mkCustomer (next_pk (List.map c_id (customers d)))
                            (ci_name input) (ci_email input) (ci_phone input)
                            (c 0%nat) (c 0%nat)))
                   msg_customer_created true).
Proof.
  intros Hfree.
  unfold CreateCustomer_mutate, try_except, bind, Customer_email_exists,
    read, statement, calm.
  simpl. rewrite Hfree.
  destruct (phone_rejected isdecimal (ci_phone input)); [reflexivity|].
  unfold Customer_create, bind, now, statement. simpl. now rewrite Hfree.
Qed.

(** C8. For a request whose email is free, run with no fault of the store:
    [createCustomer] turns it down for the format of the phone exactly when
    the phone is given, is not empty, and matches neither
    [^\+\d{1,3}\d{9,10}$] nor [^\d{3}-\d{3}-\d{4}$]; in every other case
    (no phone, an empty one, one that matches either pattern) the customer
    is created. *)
Theorem phone_is_rejected_iff_it_fits_no_format isdecimal input d c :
  existsb (fun cu => str_eqb (c_email cu) (ci_email input)) (customers d)
  = false ->
  let outcome := fst (CreateCustomer_mutate isdecimal input (calm d c)) in
  let fits_none :=
    exists s, ci_phone input = Some s /\ s <> []
              /\ re_match isdecimal (anchored international) s = false
              /\ re_match isdecimal (anchored dashed) s = false in
  (outcome = Return (failure msg_phone_format) <-> fits_none)
  /\ (~ fits_none ->
      exists customer,
        outcome = Return (mkResult (Some customer) msg_customer_created true)
        /\ as_input customer = input).
Proof.
  intros Hfree outcome fits_none. subst outcome.
  rewrite (@CreateCustomer_run isdecimal input d c Hfree).
  rewrite phone_rejected_fits.
  assert (Hiff : fits_none <->
                 match ci_phone input with
                 | Some (ch :: s) => fits_a_format isdecimal (ch :: s) = false
                 | _ => False
                 end).
  { subst fits_none. unfold fits_a_format. split.
    - intros (s & -> & Hne & H1 & H2). destruct s; [congruence|].
      now rewrite H1, H2.
    - destruct (ci_phone input) as [[|ch s]|]; try contradiction.
      intros H. apply orb_false_iff in H. destruct H as [H1 H2].
      exists (ch :: s). repeat split; try assumption. discriminate. }
  rewrite Hiff. clear Hiff.
  assert (Hin : as_input
                  (mkCustomer (next_pk (List.map c_id (customers d)))
                     (ci_name input) (ci_email input) (ci_phone input)
                     (c 0%nat) (c 0%nat)) = input)
    by (destruct input; reflexivity).
  destruct (ci_phone input) as [[|ch s]|].
  - split; [split; [discriminate | contradiction]|]. eauto.
  - destruct (fits_a_format isdecimal (ch :: s)); simpl.
    + split; [split; discriminate|]. eauto.
    + split; [split; reflexivity|]. intros H. now contradiction H.
  - split; [split; [discriminate | contradiction]|]. eauto.
Qed.

Lemma phone_is_rejected_witness :
  let input := mkCustomerInput (lit "Cy") (lit "c@x.com")
                               (Some (lit "5550101")) in
  existsb (fun cu => str_eqb (c_email cu) (ci_email input))
          (customers demo_db) = false
  /\ (fst (CreateCustomer_mutate ascii_digit input demo_world)
      = Return (failure msg_phone_format)
      <-> exists s, ci_phone input = Some s /\ s <> []
                    /\ re_match ascii_digit (anchored international) s = false
                    /\ re_match ascii_digit (anchored dashed) s = false).
Proof.
  split; [reflexivity|].
  apply (@phone_is_rejected_iff_it_fits_no_format ascii_digit
           (mkCustomerInput (lit "Cy") (lit "c@x.com") (Some (lit "5550101")))
           demo_db demo_clock).
  reflexivity.
Defined.

(** The patterns at work, on the ASCII digits.  A newline that ends the
    phone is let through by [$]. *)
Example phone_patterns_at_work :
  let ok := re_match ascii_digit phone_pattern in
  ok (lit "+14155550100") = true
  /\ ok (lit "123-456-7890") = true
  /\ ok (lit "+1234567890123") = true
  /\ ok (lit "+123456789") = false
  /\ ok (lit "+12345678901234") = false
  /\ ok (lit "123-456-78901") = false
  /\ ok (lit "1234567890") = false
  /\ ok (lit "123-456-7890" ++ [10%N]) = true.
Proof. repeat split. Qed.

(** The first example scenario. *)
Example ana_is_created :
  fst (CreateCustomer_mutate ascii_digit
         (mkCustomerInput (lit "Ana") (lit "a@x.com")
                          (Some (lit "+14155550100")))
         (calm empty_db demo_clock))
  = Return (mkResult
              (Some (mkCustomer 1 (lit "Ana") (lit "a@x.com")
                       (Some (lit "+14155550100"))
                       (demo_clock 0) (demo_clock 0)))
              msg_customer_created true).
Proof. reflexivity. Qed.

(** The second example scenario. *)
Example ana_again_is_refused :
  fst (CreateCustomer_mutate ascii_digit
         (mkCustomerInput (lit "Ana") (lit "a@x.com") None) demo_world)
  = Return (failure msg_email_exists).
Proof. reflexivity. Qed.

(** A fault of the store in a batch.  The write of the second item fails;
    the handler of the loop catches the fault, but the transaction is
    marked for rollback: the items that follow are refused by Django, and
    at the end of the block everything is rolled back.  The result still
    lists the first customer, with [success] true, and the store has no
    new row. *)
Example a_fault_rolls_the_batch_back :
  exists r w',
    BulkCreateCustomers_mutate ascii_digit demo_batch
      (mkWorld empty_db [false; false; false; true] demo_clock 0 false false)
    = (Return r, w')
    /\ List.map c_name (b_customers r) = [lit "Ben"]
    /\ b_errors r
       = [lit "Customer 2: database error";
          lit "Customer 3: An error occurred in the current transaction.";
          lit "Customer 4: An error occurred in the current transaction."]
    /\ b_success r = true
    /\ db w' = empty_db.
Proof. eexists. eexists. repeat split; reflexivity. Qed.

(** A batch in which the second and the third item fail and the fourth
    passes. *)
Example demo_batch_run :
  exists r w',
    BulkCreateCustomers_mutate ascii_digit demo_batch demo_world
    = (Return r, w')
    /\ verdicts ascii_digit (List.map c_email (customers demo_db)) demo_batch
       = [Passes; EmailTaken; BadPhone; Passes]
    /\ b_errors r = [lit "Customer 2: Email already exists";
                     lit "Customer 3: Invalid phone format"]
    /\ List.map c_name (b_customers r) = [lit "Ben"; lit "Di"]
    /\ b_success r = true
    /\ List.map c_name (customers (db w')) = [lit "Ana"; lit "Ben"; lit "Di"].
Proof.
  eexists. eexists. split; [vm_compute; reflexivity|].
  repeat split; vm_compute; reflexivity.
Qed.

(** ** The products of a new order *)

Lemma filter_all_true A (f : A -> bool) l :
  (forall x, In x l -> f x = true) -> filter f l = l.
Proof.
  induction l as [|a l IH]; simpl; intros H; [reflexivity|].
  rewrite (H a (or_introl eq_refl)). f_equal. apply IH. auto.
Qed.

Lemma filter_all_false A (f : A -> bool) l :
  (forall x, In x l -> f x = false) -> filter f l = [].
Proof.
  induction l as [|a l IH]; simpl; intros H; [reflexivity|].
  rewrite (H a (or_introl eq_refl)). apply IH. auto.
Qed.

Lemma dedup_NoDup l : NoDup l -> dedup l = l.
Proof.
  induction 1 as [|x l Hx Hl IH]; simpl; [reflexivity|].
  destruct (mem x l) eqn:E; [apply mem_In in E; contradiction|].
  now rewrite IH.
Qed.

Lemma the_row_of_a_key (l : list Product) p :
  NoDup (List.map p_id l) -> In p l ->
  filter (fun q => Z.eqb (p_id q) (p_id p)) l = [p].
Proof.
  induction l as [|a l IH]; simpl; intros Hnd Hin; [contradiction|].
  inversion Hnd as [|x xs Hx Hxs]; subst.
  destruct Hin as [->|Hin].
  - rewrite Z.eqb_refl. f_equal. apply filter_all_false.
    intros q Hq. apply Z.eqb_neq. intros E. apply Hx.
    rewrite <- E. now apply in_map.
  - destruct (Z.eqb (p_id a) (p_id p)) eqn:E.
    + apply Z.eqb_eq in E. exfalso. apply Hx. rewrite E. now apply in_map.
    + now apply IH.
Qed.

Lemma flat_map_nil A B (f : A -> list B) l :
  (forall x, In x l -> f x = []) -> flat_map f l = [].
Proof.
  induction l as [|a l IH]; simpl; intros H; [reflexivity|].
  rewrite (H a (or_introl eq_refl)). apply IH. auto.
Qed.

Lemma products_of_new_order k objs d :
  ~ In k (List.map fst (order_products d)) ->
  NoDup (List.map p_id (products d)) ->
  (forall p, In p objs -> In p (products d)) ->
  NoDup (List.map p_id objs) ->
  products_of k (set_products k objs d) = objs
  /\ order_products (set_products k objs d)
     = order_products d ++ List.map (fun p => (k, p_id p)) objs.
Proof.
  intros Hk Hpk Hsub Hobjs.
  assert (Hnone : forall op, In op (order_products d) ->
                             Z.eqb (fst op) k = false).
  { intros op Hop. apply Z.eqb_neq. intros E. apply Hk. rewrite <- E.
    now apply in_map. }
  assert (Hold : products_of k d = []).
  { unfold products_of. apply flat_map_nil.
    intros op Hop. now rewrite (Hnone op Hop). }
  assert (Hlinks : order_products (set_products k objs d)
                   = order_products d
                     ++ List.map (fun p => (k, p_id p)) objs).
  { unfold set_products. rewrite Hold. cbn [List.map filter order_products].
    rewrite (@filter_all_true _ _ (order_products d)).
    2:{ intros op _. cbn [mem existsb]. now rewrite andb_false_r. }
    unfold linked. cbn [order_products].
    rewrite (@filter_all_false _ _ (order_products d) Hnone).
    cbn [List.map mem existsb negb].
    rewrite (@filter_all_true _ _ (List.map p_id objs)) by reflexivity.
    rewrite (@dedup_NoDup _ Hobjs), map_map. reflexivity. }
  split; [|exact Hlinks].
  unfold products_of at 1. rewrite Hlinks, flat_map_app.
  replace (products (set_products k objs d)) with (products d)
    by reflexivity.
  rewrite flat_map_nil.
  2:{ intros op Hop. now rewrite (Hnone op Hop). }
  cbn [app]. clear Hlinks Hobjs.
  induction objs as [|p objs IH]; [reflexivity|].
  cbn [List.map flat_map fst snd]. rewrite Z.eqb_refl.
  rewrite (@the_row_of_a_key (products d) p Hpk (Hsub p (or_introl eq_refl))).
  cbn [app]. f_equal. apply IH. intros q Hq. apply Hsub. now right.
Qed.

(** In a store with primary keys where the rows of the many-to-many table
    belong to orders, the order that [createOrder] creates is joined to the
    products that its ids name, each once, and its total is the sum of
    their prices. *)
Lemma created_order_has_the_products_asked_for input w r w' :
  product_pk (db w) ->
  links_have_orders (db w) ->
  CreateOrder_mutate input w = (Return r, w') ->
  success r = true ->
  exists order k ks,
    value r = Some order /\ o_pk order = Some k
    /\ prep_id_in (oi_product_ids input) = Return ks
    /\ products_of k (db w') = Product_id_in ks (db w)
    /\ o_total_amount order
       = sum (List.map p_price (Product_id_in ks (db w))).
Proof.
  intros Hpk Hfk H Hs.
  destruct (@CreateOrder_success _ _ _ _ H Hs)
    as (kc & customer & ks & wq & order & w1 & _ & _ & Hprep & _ & Hq & Hblock
        & Hdb & ->).
  apply create_order_block_spec in Hblock.
  destruct Hblock
    as (k & Hk & Hfresh & _ & _ & Htotal & _ & _ & Hlinks & Hprods & _).
  cbn [db set_atomic] in Hfresh, Hlinks, Hprods.
  rewrite Hq in Hfresh, Hlinks, Hprods.
  assert (Hnew : ~ In k (List.map fst (order_products (db w)))).
  { intros Hin. apply Hfresh. apply in_map_iff in Hin.
    destruct Hin as (op & <- & Hop). now apply Hfk. }
  assert (Hjoin : products_of k (db w1) = Product_id_in ks (db w)).
  { transitivity (products_of k (set_products k (Product_id_in ks (db w))
                                               (db w)));
      [apply products_of_ext; assumption|].
    apply products_of_new_order; try assumption.
    - intros p Hp. unfold Product_id_in in Hp. now apply filter_In in Hp.
    - now apply NoDup_map_filter. }
  exists order, k, ks. rewrite Hdb.
  repeat split; try assumption. now rewrite Htotal, Hjoin.
Qed.

(** ** The primary key of the product table is an invariant *)

Section Preservation.

Variable P : DB -> Prop.

Lemma preserves_ret A (a : A) : preserves P (ret a).
Proof. intros w r w' HP E. unfold ret in E. now inversion E; subst. Qed.

Lemma preserves_lift A (o : Outcome A) : preserves P (lift o).
Proof. intros w r w' HP E. unfold lift in E. now inversion E; subst. Qed.

Lemma preserves_raise A e : preserves P (@raise A e).
Proof. intros w r w' HP E. unfold raise in E. now inversion E; subst. Qed.

Lemma preserves_now : preserves P now.
Proof. intros w r w' HP E. unfold now in E. now inversion E; subst. Qed.

Lemma preserves_bind A B (c : Action A) (f : A -> Action B) :
  preserves P c -> (forall a, preserves P (f a)) -> preserves P (bind c f).
Proof.
  intros Hc Hf w r w' HP E. unfold bind in E.
  destruct (c w) as [[a|e] w1] eqn:E1.
  - eapply Hf; [|eassumption]. eapply Hc; eassumption.
  - inversion E; subst. eapply Hc; eassumption.
Qed.

Lemma preserves_try_except A (c : Action A) h :
  preserves P c -> (forall e, preserves P (h e)) ->
  preserves P (try_except c h).
Proof.
  intros Hc Hh w r w' HP E. unfold try_except in E.
  destruct (c w) as [[a|e] w1] eqn:E1.
  - inversion E; subst. eapply Hc; eassumption.
  - eapply Hh; [|eassumption]. eapply Hc; eassumption.
Qed.

Lemma preserves_except_DoesNotExist A (c h : Action A) :
  preserves P c -> preserves P h -> preserves P (except_DoesNotExist c h).
Proof.
  intros Hc Hh w r w' HP E. unfold except_DoesNotExist in E.
  destruct (c w) as [[a|e] w1] eqn:E1.
  - inversion E; subst. eapply Hc; eassumption.
  - assert (P (db w1)) by (eapply Hc; eassumption).
    destruct e; try (inversion E; subst; assumption).
    eapply Hh; eassumption.
Qed.

Lemma preserves_statement A write (f : DB -> Outcome A * DB) :
  (forall d, P d -> P (snd (f d))) -> preserves P (statement write f).
Proof.
  intros Hf w r w' HP E. unfold statement in E.
  destruct (in_atomic w && needs_rollback w).
  { now inversion E; subst. }
  destruct (hd false (faults w)).
  { inversion E; subst. unfold mark_for_rollback.
    destruct (write && _); assumption. }
  simpl in E. specialize (Hf (db w) HP).
  destruct (f (db w)) as [[a|e] d]; inversion E; subst; simpl.
  - assumption.
  - unfold mark_for_rollback. destruct (write && _); assumption.
Qed.

Lemma preserves_atomic A (body : Action A) :
  preserves P body -> preserves P (atomic body).
Proof.
  intros Hb w r w' HP E. unfold atomic in E.
  destruct (body (set_atomic true false w)) as [[a|e] w1] eqn:E1.
  - assert (P (db w1)) by (eapply Hb; [|eassumption]; assumption).
    destruct (needs_rollback w1); [now inversion E; subst|].
    destruct (hd false (faults w1)); now inversion E; subst.
  - now inversion E; subst.
Qed.

End Preservation.

Lemma product_pk_empty : product_pk empty_db.
Proof. constructor. Qed.

Ltac preserve :=
  repeat match goal with
         | |- forall _, _ => intro
         | |- preserves _ (except_DoesNotExist _ _) =>
             apply preserves_except_DoesNotExist
         | |- preserves _ (try_except _ _) => apply preserves_try_except
         | |- preserves _ (bind _ _) => apply preserves_bind
         | |- preserves _ (atomic _) => apply preserves_atomic
         | |- preserves _ (ret _) => apply preserves_ret
         | |- preserves _ (lift _) => apply preserves_lift
         | |- preserves _ (raise _) => apply preserves_raise
         | |- preserves _ now => apply preserves_now
         | |- preserves _ (statement _ _) => apply preserves_statement
         end.

Lemma CreateCustomer_keeps_product_pk isdecimal input :
  preserves product_pk (CreateCustomer_mutate isdecimal input).
Proof.
  unfold CreateCustomer_mutate, Customer_email_exists, Customer_create, read.
  apply preserves_try_except; [|preserve].
  apply preserves_bind; [preserve; assumption|].
  intros taken. destruct taken; [preserve|].
  destruct (phone_rejected _ _); preserve.
  destruct (existsb _ _); assumption.
Qed.

Lemma BulkCreateCustomers_keeps_product_pk isdecimal input :
  preserves product_pk (BulkCreateCustomers_mutate isdecimal input).
Proof.
  unfold BulkCreateCustomers_mutate.
  apply preserves_try_except; [|preserve].
  apply preserves_bind; [|preserve].
  apply preserves_atomic.
  generalize 0%nat, (@nil Customer, @nil str).
  induction input as [|x rest IH]; intros i acc; simpl; [preserve|].
  apply preserves_bind; [|intros a; apply IH].
  unfold bulk_item. destruct acc as [created errors].
  unfold Customer_email_exists, Customer_create, read.
  apply preserves_try_except; [|preserve].
  apply preserves_bind; [preserve; assumption|].
  intros taken. destruct taken; [preserve|].
  destruct (phone_rejected _ _); preserve.
  destruct (existsb _ _); assumption.
Qed.

Lemma NoDup_snoc (l : list Z) a : NoDup l -> ~ In a l -> NoDup (l ++ [a]).
Proof.
  intros Hl Ha. apply (@NoDup_Add _ a l (l ++ [a])); [|split; assumption].
  rewrite <- (app_nil_r l) at 1. apply Add_app.
Qed.

Lemma CreateProduct_keeps_product_pk input :
  preserves product_pk (CreateProduct_mutate input).
Proof.
  unfold CreateProduct_mutate, Product_create.
  apply preserves_try_except; [|preserve].
  destruct (float_le_0 _); [preserve|].
  destruct (Z.ltb _ 0); preserve.
  unfold product_pk in *. simpl. rewrite map_app. simpl.
  apply NoDup_snoc; [assumption | apply next_pk_fresh].
Qed.

Lemma CreateOrder_keeps_product_pk input :
  preserves product_pk (CreateOrder_mutate input).
Proof.
  unfold CreateOrder_mutate, CreateOrder_try, resolve_customer, Customer_get,
    read.
  apply preserves_try_except; [|preserve].
  apply preserves_bind; [preserve; assumption|].
  intros [refusal|customer]; [preserve|].
  destruct (oi_product_ids input); [preserve|].
  apply preserves_bind; [preserve|]. intros ks.
  apply preserves_bind; [preserve; assumption|]. intros products.
  destruct (negb _); [preserve|].
  apply preserves_bind; [|preserve].
  apply preserves_atomic.
  unfold create_order_block, Order_objects_create, update_total,
    calculate_total, Order_products_all, Order_products_set, Order_save,
    Model_save, read.
  apply preserves_bind; [destruct (oi_order_date input); preserve|].
  intros date. apply preserves_bind.
  { preserve. simpl. assumption. }
  intros order. apply preserves_bind.
  { destruct (o_pk order); preserve. assumption. }
  intros _. apply preserves_bind.
  { apply preserves_bind; [|preserve].
    destruct (o_pk order); preserve. assumption. }
  intros total. preserve.
  match goal with
  | |- context [match ?pk with Some _ => _ | None => _ end] => destruct pk
  end; [|assumption].
  destruct (existsb _ _); assumption.
Qed.

(** The store that starts empty has a primary key on its product table
    after any run of any mutation. *)
Theorem product_pk_is_invariant isdecimal :
  product_pk empty_db
  /\ (forall i, preserves product_pk (CreateCustomer_mutate isdecimal i))
  /\ (forall i, preserves product_pk (BulkCreateCustomers_mutate isdecimal i))
  /\ (forall i, preserves product_pk (CreateProduct_mutate i))
  /\ (forall i, preserves product_pk (CreateOrder_mutate i)).
Proof.
  split; [apply product_pk_empty|].
  split; [apply CreateCustomer_keeps_product_pk|].
  split; [apply BulkCreateCustomers_keeps_product_pk|].
  split; [apply CreateProduct_keeps_product_pk|].
  apply CreateOrder_keeps_product_pk.
Qed.

(** ** Queries *)

Lemma ProductFilter_fields_low_stock casefold v f qs :
  ProductFilter_fields casefold (with_low_stock v f) qs
  = ProductFilter_fields casefold f qs.
Proof. reflexivity. Qed.

(** With no key, the query is the table. *)
Example no_filter_lists_the_table casefold d :
  query_products casefold no_product_filter d = products d.
Proof. reflexivity. Qed.

(** C6. For every store and every value of the other filters: with
    [low_stock] true the query yields the rows of the base query (the same
    filter map without [low_stock]) whose stock is below 10, and only
    those; with [low_stock] false it yields what the base query yields, as
    it does with [low_stock] absent. *)
Theorem low_stock_false_is_a_no_op casefold f d :
  let base := rows (ProductFilter_fields casefold f
                                         (objects_all (products d))) in
  query_products casefold (with_low_stock (Some true) f) d
  = filter (fun p => Z.ltb (p_stock p) 10) base
  /\ (forall p,
       In p (query_products casefold (with_low_stock (Some true) f) d)
       <-> In p base /\ p_stock p < 10)
  /\ query_products casefold (with_low_stock (Some false) f) d = base
  /\ query_products casefold (with_low_stock None f) d = base.
Proof.
  intros base.
  assert (Htrue : query_products casefold (with_low_stock (Some true) f) d
                  = filter (fun p => Z.ltb (p_stock p) 10) base)
    by reflexivity.
  split; [exact Htrue|]. split; [|split; reflexivity].
  intros p. rewrite Htrue, filter_In, Z.ltb_lt. reflexivity.
Qed.

(** The sixth example scenario: of the stocks 5, 12 and 9, the first and
    the last are low. *)
Example low_stock_of_the_demo_store :
  query_products ascii_lower (with_low_stock (Some true) no_product_filter)
                 demo_db
  = [widget_a; gasket].
Proof. reflexivity. Qed.

(** C5. The filter [product_name] joins the orders to their products and
    keeps one row for each product whose name matches; unlike
    [filter_by_product_id], it does not call [distinct()].  The one order of
    [store_with_order] has two products whose names contain the value, and
    the query lists it twice. *)
Theorem product_name_filter_repeats_an_order :
  exists o,
    orders store_with_order = [o]
    /\ List.map p_name (products_joined store_with_order o)
       = [lit "Widget A"; lit "Widget B"]
    /\ query_orders ascii_lower (by_product_name (lit "widget"))
                    store_with_order
       = [o; o].
Proof. eexists. repeat split; reflexivity. Qed.

(** The sibling filter does remove the repetitions: once [product_id] has
    a value that is not zero, no order comes twice. *)
Lemma product_id_filter_is_distinct casefold f d k :
  of_product_id f = Some k -> k <> 0 ->
  NoDup (query_orders casefold f d).
Proof.
  intros Hk Hnz. unfold query_orders, OrderFilter_qs.
  rewrite Hk. cbn [when_given]. unfold filter_by_product_id.
  apply Z.eqb_neq in Hnz. rewrite Hnz. cbn [negb].
  unfold evaluate, distinct. cbn [is_distinct rows].
  apply NoDup_nodup.
Qed.

Example product_name_and_id_together :
  exists o,
    orders store_with_order = [o]
    /\ query_orders ascii_lower (by_product_name_and_id (lit "widget") 1)
                    store_with_order
       = [o].
Proof. eexists. repeat split; reflexivity. Qed.

Lemma consistent_empty : consistent empty_db.
Proof.
  constructor.
  - constructor.
  - constructor.
  - constructor.
  - split; [intros ? [] | constructor].
  - intros ? [].
  - intros ? [].
  - constructor.
  - intros ? [].
  - intros ? ? [].
Qed.

Lemma existsb_email_In email cs :
  existsb (fun c => str_eqb (c_email c) email) cs = true
  <-> In email (List.map c_email cs).
Proof.
  rewrite existsb_exists, in_map_iff. split.
  - intros (c & Hc & E). apply str_eqb_eq in E. eauto.
  - intros (c & E & Hc). exists c. split; [assumption|]. now apply str_eqb_eq.
Qed.

(** Adding a customer row with a new key and a new email. *)
Lemma consistent_add_customer d c :
  consistent d ->
  ~ In (c_id c) (List.map c_id (customers d)) ->
  ~ In (c_email c) (List.map c_email (customers d)) ->
  consistent (mkDB (customers d ++ [c]) (products d) (orders d)
                   (order_products d)).
Proof.
  intros [H1 H2 H3 H4 H5 H6 H7 H8 H9] Hid Hemail.
  constructor; try assumption.
  - unfold customer_pk. simpl. rewrite map_app. now apply NoDup_snoc.
  - unfold email_unique. simpl. rewrite map_app. simpl.
    apply (@NoDup_Add _ (c_email c) (List.map c_email (customers d)));
      [|split; assumption].
    rewrite <- (app_nil_r (List.map c_email (customers d))) at 1.
    apply Add_app.
  - intros o Ho. simpl. rewrite map_app. apply in_or_app. left.
    now apply H8.
Qed.

Lemma flat_map_ext_in A B (f g : A -> list B) l :
  (forall x, In x l -> f x = g x) -> flat_map f l = flat_map g l.
Proof.
  induction l as [|a l IH]; simpl; intros H; [reflexivity|].
  rewrite (H a (or_introl eq_refl)), IH; auto.
Qed.

Lemma products_of_more_products k d p :
  links_have_products d ->
  ~ In (p_id p) (List.map p_id (products d)) ->
  products_of k (mkDB (customers d) (products d ++ [p]) (orders d)
                      (order_products d))
  = products_of k d.
Proof.
  intros Hl Hp. unfold products_of. simpl.
  apply flat_map_ext_in. intros op Hop.
  destruct (Z.eqb (fst op) k); [|reflexivity].
  rewrite filter_app. simpl.
  destruct (Z.eqb (p_id p) (snd op)) eqn:E; [|apply app_nil_r].
  apply Z.eqb_eq in E. exfalso. apply Hp. rewrite E. now apply Hl.
Qed.

(** Adding a product row with a new key. *)
Lemma consistent_add_product d p :
  consistent d ->
  ~ In (p_id p) (List.map p_id (products d)) ->
  consistent (mkDB (customers d) (products d ++ [p]) (orders d)
                   (order_products d)).
Proof.
  intros [H1 H2 H3 H4 H5 H6 H7 H8 H9] Hid.
  constructor; try assumption.
  - unfold product_pk. simpl. rewrite map_app. now apply NoDup_snoc.
  - intros op Hop. simpl. rewrite map_app. apply in_or_app. left.
    now apply H6.
  - intros o k Ho Hk. simpl in Ho.
    rewrite (@products_of_more_products k d p H6 Hid). now apply H9.
Qed.

Lemma CreateCustomer_keeps_consistent isdecimal input :
  preserves consistent (CreateCustomer_mutate isdecimal input).
Proof.
  unfold CreateCustomer_mutate, Customer_email_exists, Customer_create, read.
  apply preserves_try_except; [|preserve].
  apply preserves_bind; [preserve; assumption|].
  intros taken. destruct taken; [preserve|].
  destruct (phone_rejected _ _); preserve.
  destruct (existsb _ _) eqn:E; [assumption|]. simpl.
  apply consistent_add_customer; try assumption.
  - apply next_pk_fresh.
  - simpl. intros Hin. apply existsb_email_In in Hin. congruence.
Qed.

Lemma BulkCreateCustomers_keeps_consistent isdecimal input :
  preserves consistent (BulkCreateCustomers_mutate isdecimal input).
Proof.
  unfold BulkCreateCustomers_mutate.
  apply preserves_try_except; [|preserve].
  apply preserves_bind; [|preserve].
  apply preserves_atomic.
  generalize 0%nat, (@nil Customer, @nil str).
  induction input as [|x rest IH]; intros i acc; simpl; [preserve|].
  apply preserves_bind; [|intros a; apply IH].
  unfold bulk_item. destruct acc as [created errors].
  unfold Customer_email_exists, Customer_create, read.
  apply preserves_try_except; [|preserve].
  apply preserves_bind; [preserve; assumption|].
  intros taken. destruct taken; [preserve|].
  destruct (phone_rejected _ _); preserve.
  destruct (existsb _ _) eqn:E; [assumption|]. simpl.
  apply consistent_add_customer; try assumption.
  - apply next_pk_fresh.
  - simpl. intros Hin. apply existsb_email_In in Hin. congruence.
Qed.

Lemma CreateProduct_keeps_consistent input :
  preserves consistent (CreateProduct_mutate input).
Proof.
  unfold CreateProduct_mutate, Product_create.
  apply preserves_try_except; [|preserve].
  destruct (float_le_0 _); [preserve|].
  destruct (Z.ltb _ 0); preserve.
  simpl. apply consistent_add_product; [assumption | apply next_pk_fresh].
Qed.

Lemma get_by_id_In R (pk : R -> Z) rows k r :
  get_by_id pk rows k = Return r -> In r rows /\ pk r = k.
Proof.
  unfold get_by_id.
  destruct (filter (fun r0 => Z.eqb (pk r0) k) rows) as [|a [|b l]] eqn:E;
    try discriminate.
  intros H. inversion H; subst a.
  assert (Hin : In r (filter (fun r0 => Z.eqb (pk r0) k) rows))
    by (rewrite E; now left).
  apply filter_In in Hin. destruct Hin as [Hin Hk].
  apply Z.eqb_eq in Hk. auto.
Qed.

Lemma order_ids_app d os o k :
  orders d = os ++ [o] -> o_pk o = Some k ->
  order_ids d
  = flat_map (fun o => match o_pk o with Some k => [k] | None => [] end) os
    ++ [k].
Proof.
  intros Ho Hk. unfold order_ids. rewrite Ho, flat_map_app. simpl.
  now rewrite Hk.
Qed.

Lemma NoDup_map_pair A (f : A -> Z) (k : Z) l :
  NoDup (List.map f l) -> NoDup (List.map (fun x => (k, f x)) l).
Proof.
  induction l as [|a l IH]; simpl; intros H; [constructor|].
  inversion H as [|x xs Hx Hxs]; subst. constructor; [|auto].
  intros Hin. apply Hx. apply in_map_iff in Hin.
  destruct Hin as (b & E & Hb). injection E as E'. rewrite <- E'.
  now apply in_map.
Qed.

(** Adding an order with a new key, joined to products of the store. *)
Lemma consistent_add_order d d1 order k ps customer :
  consistent d ->
  o_pk order = Some k -> ~ In k (order_ids d) ->
  orders d1 = orders d ++ [order] ->
  o_total_amount order = sum (List.map p_price (products_of k d1)) ->
  o_customer_id order = c_id customer -> In customer (customers d) ->
  order_products d1 = order_products (set_products k ps d) ->
  products d1 = products d -> customers d1 = customers d ->
  (forall p, In p ps -> In p (products d)) ->
  NoDup (List.map p_id ps) ->
  consistent d1.
Proof.
  intros [H1 H2 H3 [H4 H4'] H5 H6 H7 H8 H9]
         Hpk Hfresh Horders Htotal Hcust Hin Hlinks Hprods Hcusts Hsub Hnd.
  assert (Hnew : ~ In k (List.map fst (order_products d))).
  { intros Hk. apply Hfresh. apply in_map_iff in Hk.
    destruct Hk as (op & <- & Hop). now apply H5. }
  destruct (@products_of_new_order k ps d Hnew H3 Hsub Hnd) as [_ Hset].
  rewrite Hset in Hlinks. clear Hset.
  assert (Hids : order_ids d1 = order_ids d ++ [k])
    by (now apply order_ids_app with (o := order)).
  constructor.
  - unfold customer_pk. now rewrite Hcusts.
  - unfold email_unique. now rewrite Hcusts.
  - unfold product_pk. now rewrite Hprods.
  - split.
    + intros o Ho. rewrite Horders in Ho. apply in_app_or in Ho.
      destruct Ho as [Ho|[<-|[]]]; [now apply H4 | congruence].
    + rewrite Hids. now apply NoDup_snoc.
  - intros op Hop. rewrite Hlinks in Hop. rewrite Hids.
    apply in_or_app. apply in_app_or in Hop. destruct Hop as [Hop|Hop].
    + left. now apply H5.
    + right. apply in_map_iff in Hop. destruct Hop as (p & <- & _).
      now left.
  - intros op Hop. rewrite Hlinks in Hop. rewrite Hprods.
    apply in_app_or in Hop. destruct Hop as [Hop|Hop].
    + now apply H6.
    + apply in_map_iff in Hop. destruct Hop as (p & <- & Hp).
      simpl. apply in_map. now apply Hsub.
  - unfold links_unique. rewrite Hlinks. apply NoDup_app.
    + assumption.
    + now apply NoDup_map_pair.
    + intros op Hop Hop'. apply Hnew. apply in_map_iff in Hop'.
      destruct Hop' as (p & <- & _). apply in_map_iff.
      exists (k, p_id p). auto.
  - intros o Ho. rewrite Horders in Ho. rewrite Hcusts.
    apply in_app_or in Ho. destruct Ho as [Ho|[<-|[]]].
    + now apply H8.
    + rewrite Hcust. now apply in_map.
  - intros o k' Ho Hk'. rewrite Horders in Ho.
    apply in_app_or in Ho. destruct Ho as [Ho|[<-|[]]].
    + assert (Hne : Z.eqb k k' = false).
      { apply Z.eqb_neq. intros ->. apply Hfresh.
        apply has_pk_order_ids. apply existsb_exists. exists o.
        split; [assumption|]. unfold has_pk. rewrite Hk'. apply Z.eqb_refl. }
      rewrite (H9 o k' Ho Hk'). f_equal. f_equal.
      unfold products_of. rewrite Hlinks, Hprods, flat_map_app.
      rewrite (@flat_map_nil _ _ _ (List.map (fun p => (k, p_id p)) ps)).
      * now rewrite app_nil_r.
      * intros op Hop. apply in_map_iff in Hop.
        destruct Hop as (p & <- & _). simpl. now rewrite Hne.
    + rewrite Hpk in Hk'. inversion Hk'; subst k'. assumption.
Qed.

Lemma CreateOrder_keeps_consistent input :
  preserves consistent (CreateOrder_mutate input).
Proof.
  intros w r w' Hok Hrun.
  destruct (@try_except_returns _ (CreateOrder_try input)
              (fun e => failure (lit "Error creating order: "
                                   ++ str_of_exception e)) w)
    as (res & w0 & E).
  change (CreateOrder_mutate input w = (Return res, w0)) in E.
  rewrite Hrun in E. inversion E; subst r w0. clear E.
  destruct (success res) eqn:Hs.
  - destruct (@CreateOrder_success _ _ _ _ Hrun Hs)
      as (kc & customer & ks & wq & order & w1 & _ & Hget & _ & _ & Hq
          & Hblock & Hdb & _).
    apply create_order_block_spec in Hblock.
    destruct Hblock as (k & Hpk & Hfresh & _ & Horders & Htotal & Hcust & _
                        & Hlinks & Hprods & Hcusts).
    cbn [db set_atomic] in Hfresh, Horders, Hlinks, Hprods, Hcusts.
    rewrite Hq in Hfresh, Horders, Hlinks, Hprods, Hcusts.
    rewrite Hdb.
    apply (@consistent_add_order (db w) (db w1) order k
             (Product_id_in ks (db w)) customer); try assumption.
    + apply get_by_id_In in Hget. tauto.
    + intros p Hp. unfold Product_id_in in Hp. now apply filter_In in Hp.
    + apply NoDup_map_filter. apply Hok.
  - unfold CreateOrder_mutate, try_except in Hrun.
    destruct (CreateOrder_try input w) as [[r0|e] w0] eqn:E.
    + apply CreateOrder_try_db in E. inversion Hrun; subst.
      destruct E as [E|E]; [congruence | now rewrite E].
    + apply CreateOrder_try_db in E. unfold ret in Hrun.
      inversion Hrun; subst. now rewrite E.
Qed.

Lemma reachable_consistent isdecimal d :
  reachable isdecimal d -> consistent d.
Proof.
  induction 1 as [|input w r w' _ IH Hrun|input w r w' _ IH Hrun
                  |input w r w' _ IH Hrun|input w r w' _ IH Hrun].
  - apply consistent_empty.
  - exact (@CreateCustomer_keeps_consistent isdecimal input w r w' IH Hrun).
  - exact (@BulkCreateCustomers_keeps_consistent isdecimal input w r w' IH Hrun).
  - exact (@CreateProduct_keeps_consistent input w r w' IH Hrun).
  - exact (@CreateOrder_keeps_consistent input w r w' IH Hrun).
Qed.

Lemma NoDup_map_same A B (f : A -> B) l a b :
  NoDup (List.map f l) -> In a l -> In b l -> f a = f b -> a = b.
Proof.
  induction l as [|x l IH]; simpl; intros Hnd Ha Hb E; [contradiction|].
  inversion Hnd as [|y ys Hy Hys]; subst.
  destruct Ha as [->|Ha], Hb as [->|Hb]; try reflexivity.
  - exfalso. apply Hy. rewrite E. now apply in_map.
  - exfalso. apply Hy. rewrite <- E. now apply in_map.
  - now apply IH.
Qed.

Lemma built_store_reachable : reachable ascii_digit built_store.
Proof.
  unfold built_store.
  eapply reach_createOrder; [|apply surjective_pairing].
  change (reachable ascii_digit
            (db (snd (CreateProduct_mutate bolt
                        (after (CreateCustomer_mutate ascii_digit cy
                                  (calm empty_db demo_clock))))))).
  eapply reach_createProduct; [|apply surjective_pairing].
  change (reachable ascii_digit
            (db (snd (CreateCustomer_mutate ascii_digit cy
                        (calm empty_db demo_clock))))).
  eapply reach_createCustomer; [|apply surjective_pairing].
  apply reach_empty.
Qed.

(** X1. In every store that the four mutations can produce from the empty
    one, whatever the faults of the store: no two customers have the same
    email. *)
Theorem emails_stay_unique isdecimal d c1 c2 :
  reachable isdecimal d ->
  In c1 (customers d) -> In c2 (customers d) ->
  c_email c1 = c_email c2 -> c1 = c2.
Proof.
  intros Hr. apply reachable_consistent in Hr.
  apply NoDup_map_same. apply Hr.
Qed.

Lemma emails_stay_unique_witness :
  reachable ascii_digit built_store
  /\ (forall c1 c2,
        In c1 (customers built_store) -> In c2 (customers built_store) ->
        c_email c1 = c_email c2 -> c1 = c2).
Proof.
  split; [apply built_store_reachable|].
  intros c1 c2.
  exact (@emails_stay_unique ascii_digit built_store c1 c2
           built_store_reachable).
Defined.

Lemma orders_same_pk (l : list Order) :
  (forall o, In o l -> o_pk o <> None) ->
  NoDup (flat_map (fun o => match o_pk o with Some k => [k] | None => [] end)
                  l) ->
  forall o1 o2, In o1 l -> In o2 l -> o_pk o1 = o_pk o2 -> o1 = o2.
Proof.
  induction l as [|x l IH]; intros H4 H4' o1 o2 Ho1 Ho2 E; [contradiction|].
  simpl in H4'.
  assert (Hx : exists k, o_pk x = Some k).
  { specialize (H4 x (or_introl eq_refl)).
    destruct (o_pk x); [eauto|congruence]. }
  destruct Hx as (kx & Hkx). rewrite Hkx in H4'. simpl in H4'.
  inversion H4' as [|y ys Hy Hys]; subst.
  assert (Hnot : forall o, In o l -> o_pk o <> Some kx).
  { intros o Ho Hk. apply Hy. apply in_flat_map. exists o.
    split; [assumption|]. rewrite Hk. now left. }
  destruct Ho1 as [->|Ho1], Ho2 as [->|Ho2]; try reflexivity.
  - exfalso. apply (Hnot o2 Ho2). congruence.
  - exfalso. apply (Hnot o1 Ho1). congruence.
  - apply IH; try assumption. intros o Ho. apply H4. now right.
Qed.

(** X2. In every such store a primary key names one row: two customers,
    two products or two orders with the same id are the same row, and every
    order has an id. *)
Theorem primary_keys_stay_unique isdecimal d :
  reachable isdecimal d ->
  (forall c1 c2, In c1 (customers d) -> In c2 (customers d) ->
                 c_id c1 = c_id c2 -> c1 = c2)
  /\ (forall p1 p2, In p1 (products d) -> In p2 (products d) ->
                    p_id p1 = p_id p2 -> p1 = p2)
  /\ (forall o1 o2, In o1 (orders d) -> In o2 (orders d) ->
                    o_pk o1 = o_pk o2 -> o1 = o2)
  /\ (forall o, In o (orders d) -> exists k, o_pk o = Some k).
Proof.
  intros Hr. apply reachable_consistent in Hr.
  destruct Hr as [H1 _ H3 [H4 H4'] _ _ _ _ _].
  split; [intros c1 c2; now apply NoDup_map_same|].
  split; [intros p1 p2; now apply NoDup_map_same|].
  assert (Hsome : forall o, In o (orders d) -> exists k, o_pk o = Some k).
  { intros o Ho. specialize (H4 o Ho). destruct (o_pk o) as [k|]; [eauto|].
    congruence. }
  split; [|exact Hsome].
  now apply orders_same_pk.
Qed.

Lemma primary_keys_stay_unique_witness :
  reachable ascii_digit built_store
  /\ (forall o, In o (orders built_store) -> exists k, o_pk o = Some k).
Proof.
  split; [apply built_store_reachable|].
  exact (proj2 (proj2 (proj2
           (@primary_keys_stay_unique ascii_digit built_store
              built_store_reachable)))).
Defined.

(** X3. In every such store the foreign keys hold: the customer of every
    order is a customer of the store, and every row of the many-to-many
    table joins an order of the store to a product of the store, and no
    pair comes twice. *)
Theorem foreign_keys_stay_valid isdecimal d :
  reachable isdecimal d ->
  (forall o, In o (orders d) ->
             exists c, In c (customers d) /\ c_id c = o_customer_id o)
  /\ (forall ko kp, In (ko, kp) (order_products d) ->
        (exists o, In o (orders d) /\ o_pk o = Some ko)
        /\ (exists p, In p (products d) /\ p_id p = kp))
  /\ NoDup (order_products d).
Proof.
  intros Hr. apply reachable_consistent in Hr.
  destruct Hr as [_ _ _ _ H5 H6 H7 H8 _].
  split; [|split; [|exact H7]].
  - intros o Ho. specialize (H8 o Ho). apply in_map_iff in H8.
    destruct H8 as (c & E & Hc). eauto.
  - intros ko kp Hop. split.
    + specialize (H5 _ Hop). simpl in H5. unfold order_ids in H5.
      apply in_flat_map in H5. destruct H5 as (o & Ho & Hk).
      exists o. split; [assumption|].
      destruct (o_pk o); [|contradiction]. destruct Hk as [->|[]].
      reflexivity.
    + specialize (H6 _ Hop). simpl in H6. apply in_map_iff in H6.
      destruct H6 as (p & E & Hp). eauto.
Qed.

Lemma foreign_keys_stay_valid_witness :
  reachable ascii_digit built_store
  /\ (forall o, In o (orders built_store) ->
        exists c, In c (customers built_store) /\ c_id c = o_customer_id o).
Proof.
  split; [apply built_store_reachable|].
  exact (proj1 (@foreign_keys_stay_valid ascii_digit built_store
                  built_store_reachable)).
Defined.

(** X4. In every such store the total of every order is the sum of the
    prices of the products joined to it. *)
Theorem totals_always_hold isdecimal d o k :
  reachable isdecimal d ->
  In o (orders d) -> o_pk o = Some k ->
  o_total_amount o = sum (List.map p_price (products_of k d)).
Proof.
  intros Hr. apply reachable_consistent in Hr. apply Hr.
Qed.

Lemma totals_always_hold_witness :
  let o := mkOrder (Some 1) 1 75 (demo_clock 1) (Some (demo_clock 1))
                   (Some (demo_clock 2)) in
  reachable ascii_digit built_store
  /\ In o (orders built_store) /\ o_pk o = Some 1
  /\ o_total_amount o = sum (List.map p_price (products_of 1 built_store)).
Proof.
  intros o.
  assert (Hin : In o (orders built_store)) by (vm_compute; now left).
  split; [apply built_store_reachable|].
  split; [exact Hin|]. split; [reflexivity|].
  exact (@totals_always_hold ascii_digit built_store o 1
           built_store_reachable Hin eq_refl).
Defined.

(** ** What a mutation does to the store *)

Lemma statement_Raise_db A write (f : DB -> Outcome A * DB) w e w' :
  statement write f w = (Raise e, w') -> db w' = db w.
Proof.
  unfold statement.
  destruct (in_atomic w && needs_rollback w).
  { intros E. now inversion E. }
  destruct (hd false (faults w)).
  { intros E. inversion E. unfold mark_for_rollback.
    destruct (write && _); reflexivity. }
  simpl. destruct (f (db w)) as [[a|e0] d]; intros E; inversion E.
  unfold mark_for_rollback. destruct (write && _); reflexivity.
Qed.

Lemma Customer_create_cases name email phone w r w' :
  Customer_create name email phone w = (r, w') ->
  match r with
  | Raise _ => db w' = db w
  | Return c =>
      existsb (fun c0 => str_eqb (c_email c0) email) (customers (db w))
      = false
      /\ c = mkCustomer (next_pk (List.map c_id (customers (db w))))
                        name email phone
                        (clock w (tick w)) (clock w (tick w))
      /\ db w' = with_customer c (db w)
  end.
Proof.
  unfold Customer_create, bind, now. simpl.
  match goal with
  | |- context [statement true ?f ?w0] =>
      destruct (statement true f w0) as [[c|e] w1] eqn:E
  end; intros H; inversion H; subst.
  - apply statement_ok in E. destruct E as (E & _). simpl in E.
    destruct (existsb _ _); [discriminate|].
    injection E as E1 E2. rewrite <- E2, <- E1. auto.
  - apply statement_Raise_db in E. assumption.
Qed.

Lemma Product_create_cases name price stock w r w' :
  Product_create name price stock w = (r, w') ->
  match r with
  | Raise _ => db w' = db w
  | Return p =>
      p = mkProduct (next_pk (List.map p_id (products (db w))))
                    name price stock
                    (clock w (tick w)) (clock w (tick w))
      /\ db w' = with_product p (db w)
  end.
Proof.
  unfold Product_create, bind, now. simpl.
  match goal with
  | |- context [statement true ?f ?w0] =>
      destruct (statement true f w0) as [[c|e] w1] eqn:E
  end; intros H; inversion H; subst.
  - apply statement_ok in E. destruct E as (E & _). simpl in E.
    injection E as E1 E2. rewrite <- E2, <- E1. auto.
  - apply statement_Raise_db in E. assumption.
Qed.

Lemma Customer_email_exists_cases email w r w' :
  Customer_email_exists email w = (r, w') ->
  db w' = db w
  /\ forall taken, r = Return taken ->
       taken = existsb (fun c => str_eqb (c_email c) email) (customers (db w)).
Proof.
  intros H. split; [eapply read_db; exact H|].
  intros taken ->. unfold Customer_email_exists, read in H.
  apply statement_ok in H. destruct H as (E & _). now inversion E.
Qed.

(** What [CreateCustomer.mutate] does, in every world. *)
Lemma CreateCustomer_cases isdecimal input w :
  exists res w',
    CreateCustomer_mutate isdecimal input w = (Return res, w')
    /\ ((success res = false /\ value res = None /\ db w' = db w)
        \/ exists c,
             res = mkResult (Some c) msg_customer_created true
             /\ db w' = with_customer c (db w)
             /\ as_input c = input
             /\ c_id c = next_pk (List.map c_id (customers (db w)))
             /\ existsb (fun c0 => str_eqb (c_email c0) (ci_email input))
                        (customers (db w)) = false
             /\ phone_rejected isdecimal (ci_phone input) = false).
Proof.
  unfold CreateCustomer_mutate, try_except, bind.
  destruct (Customer_email_exists (ci_email input) w) as [[taken|e] w1] eqn:E1;
    apply Customer_email_exists_cases in E1; destruct E1 as [Hd1 Ht].
  2:{ eexists. eexists. split; [reflexivity|]. left. auto. }
  specialize (Ht taken eq_refl).
  destruct taken.
  { eexists. eexists. split; [reflexivity|]. left. auto. }
  destruct (phone_rejected isdecimal (ci_phone input)) eqn:Hphone.
  { eexists. eexists. split; [reflexivity|]. left. auto. }
  destruct (Customer_create (ci_name input) (ci_email input) (ci_phone input) w1)
    as [[c|e] w2] eqn:E2; apply Customer_create_cases in E2.
  - destruct E2 as (Hfree & Hc & Hd2). rewrite Hd1 in Hfree, Hc, Hd2.
    eexists. eexists. split; [reflexivity|]. right. exists c.
    repeat split; try assumption.
    + subst c. destruct input; reflexivity.
    + subst c. reflexivity.
  - eexists. eexists. split; [reflexivity|]. left.
    repeat split. simpl. congruence.
Qed.

(** What [CreateProduct.mutate] does, in every world. *)
Lemma CreateProduct_cases input w :
  exists res w',
    CreateProduct_mutate input w = (Return res, w')
    /\ ((success res = false /\ value res = None /\ db w' = db w)
        \/ exists p q,
             res = mkResult (Some p) msg_product_created true
             /\ db w' = with_product p (db w)
             /\ p_id p = next_pk (List.map p_id (products (db w)))
             /\ p_name p = pi_name input
             /\ p_stock p = match pi_stock input with
                            | Some n => n
                            | None => 0
                            end
             /\ 0 <= p_stock p
             /\ pi_price input = Finite q /\ (0 < q)%Q
             /\ p_price p = quantize q).
Proof.
  unfold CreateProduct_mutate, try_except.
  destruct (float_le_0 (pi_price input)) eqn:Hprice.
  { eexists. eexists. split; [reflexivity|]. left. auto. }
  destruct (Z.ltb _ 0) eqn:Hstock.
  { eexists. eexists. split; [reflexivity|]. left. auto. }
  apply Z.ltb_ge in Hstock.
  unfold bind at 1. unfold lift.
  destruct (pi_price input) as [q| | |] eqn:Eq; simpl;
    try (eexists; eexists; split; [reflexivity|]; left; auto; fail).
  unfold bind.
  match goal with
  | |- context [Product_create ?n ?pr ?st w] =>
      destruct (Product_create n pr st w) as [[p|e] w2] eqn:E2
  end; apply Product_create_cases in E2.
  - destruct E2 as (Hp & Hd2).
    eexists. eexists. split; [reflexivity|]. right. exists p, q.
    assert (Hq : (0 < q)%Q).
    { simpl in Hprice. apply Qnot_le_lt. intros Hle.
      apply Qle_bool_iff in Hle. congruence. }
    subst p. repeat split; try assumption.
  - eexists. eexists. split; [reflexivity|]. left.
    repeat split. simpl. congruence.
Qed.

Lemma bulk_item_cases isdecimal i x created errors w :
  exists created' errors' w',
    bulk_item isdecimal i x (created, errors) w
    = (Return (created', errors'), w')
    /\ ((created' = created /\ db w' = db w)
        \/ exists c, created' = created ++ [c]
                     /\ db w' = with_customer c (db w)).
Proof.
  unfold bulk_item, try_except, bind.
  destruct (Customer_email_exists (ci_email x) w) as [[taken|e] w1] eqn:E1;
    apply Customer_email_exists_cases in E1; destruct E1 as [Hd1 _].
  2:{ do 3 eexists. split; [reflexivity|]. left. auto. }
  destruct taken.
  { do 3 eexists. split; [reflexivity|]. left. auto. }
  destruct (phone_rejected isdecimal (ci_phone x)).
  { do 3 eexists. split; [reflexivity|]. left. auto. }
  destruct (Customer_create (ci_name x) (ci_email x) (ci_phone x) w1)
    as [[c|e] w2] eqn:E2; apply Customer_create_cases in E2.
  - destruct E2 as (_ & _ & Hd2). rewrite Hd1 in Hd2.
    do 3 eexists. split; [reflexivity|]. right. exists c. auto.
  - do 3 eexists. split; [reflexivity|]. left. split; [reflexivity|].
    simpl. congruence.
Qed.

Lemma bulk_loop_cases isdecimal : forall input i created errors w,
  exists created' errors' w',
    bulk_loop isdecimal i input (created, errors) w
    = (Return (created', errors'), w')
    /\ ((created' = created /\ db w' = db w)
        \/ (List.length created < List.length created')%nat).
Proof.
  induction input as [|x rest IH]; intros i created errors w.
  - do 3 eexists. split; [reflexivity|]. left. auto.
  - cbn [bulk_loop]. unfold bind at 1.
    destruct (bulk_item_cases isdecimal i x created errors w)
      as (c1 & e1 & w1 & -> & H1).
    destruct (IH (S i) c1 e1 w1) as (c2 & e2 & w2 & -> & H2).
    do 3 eexists. split; [reflexivity|].
    destruct H1 as [[-> Hd1]|(c & -> & Hd1)].
    + destruct H2 as [[-> Hd2]|H2]; [left; split; congruence | now right].
    + right. destruct H2 as [[-> _]|H2]; rewrite ?length_app in *; simpl in *;
        lia.
Qed.

(** What [BulkCreateCustomers.mutate] does when it reports no success. *)
Lemma BulkCreateCustomers_cases isdecimal input w :
  exists res w',
    BulkCreateCustomers_mutate isdecimal input w = (Return res, w')
    /\ (b_success res = false -> b_customers res = [] /\ db w' = db w).
Proof.
  unfold BulkCreateCustomers_mutate, try_except, bind, atomic.
  destruct (bulk_loop_cases isdecimal input 0 [] [] (set_atomic true false w))
    as (cs & es & w1 & -> & H).
  assert (Hnil : Nat.ltb 0 (List.length cs) = false ->
                 cs = [] /\ db w1 = db w).
  { intros Hlt. apply Nat.ltb_ge in Hlt.
    destruct H as [[-> Hd]|H]; [auto | simpl in H; lia]. }
  destruct (needs_rollback w1).
  { eexists. eexists. split; [reflexivity|]. simpl. intros Hs.
    split; [now apply Hnil | reflexivity]. }
  destruct (hd false (faults w1)).
  { eexists. eexists. split; [reflexivity|]. simpl. auto. }
  eexists. eexists. split; [reflexivity|]. simpl. intros Hs.
  destruct (Hnil Hs) as [-> Hd]. auto.
Qed.

(** X5. A mutation that reports [success = false] has changed no table,
    whatever the input and whatever the faults of the store: the three
    single creations, and the bulk creation, which then lists no customer
    either. *)
Theorem failed_mutation_changes_nothing isdecimal (w : World) :
  (forall input, exists res w',
      CreateCustomer_mutate isdecimal input w = (Return res, w')
      /\ (success res = false -> value res = None /\ db w' = db w))
  /\ (forall input, exists res w',
        BulkCreateCustomers_mutate isdecimal input w = (Return res, w')
        /\ (b_success res = false -> b_customers res = [] /\ db w' = db w))
  /\ (forall input, exists res w',
        CreateProduct_mutate input w = (Return res, w')
        /\ (success res = false -> value res = None /\ db w' = db w))
  /\ (forall input, exists res w',
        CreateOrder_mutate input w = (Return res, w')
        /\ (success res = false -> db w' = db w)).
Proof.
  split; [|split; [|split]]; intros input.
  - destruct (CreateCustomer_cases isdecimal input w)
      as (res & w' & Hrun & [(Hs & Hv & Hd)|(c & Hres & _)]);
      exists res, w'; (split; [exact Hrun|]); [auto | now rewrite Hres].
  - apply BulkCreateCustomers_cases.
  - destruct (CreateProduct_cases input w)
      as (res & w' & Hrun & [(Hs & Hv & Hd)|(p & q & Hres & _)]);
      exists res, w'; (split; [exact Hrun|]); [auto | now rewrite Hres].
  - destruct (@try_except_returns _ (CreateOrder_try input)
                (fun e => failure (lit "Error creating order: "
                                     ++ str_of_exception e)) w)
      as (res & w' & E).
    change (CreateOrder_mutate input w = (Return res, w')) in E.
    exists res, w'. split; [exact E|]. intros Hs.
    unfold CreateOrder_mutate, try_except in E.
    destruct (CreateOrder_try input w) as [[r0|e] w0] eqn:E0.
    + apply CreateOrder_try_db in E0. inversion E; subst.
      destruct E0 as [E0|E0]; [congruence | assumption].
    + apply CreateOrder_try_db in E0. unfold ret in E.
      now inversion E; subst.
Qed.

(** X6. When [createCustomer] reports success, in any world: the store
    has gained exactly one customer row, the one handed back, made of the
    name, email and phone of the request under a key that no row had; the
    email was in no row before, and the phone was absent, empty or of an
    accepted format. *)
Theorem createCustomer_success_means isdecimal input w :
  exists res w',
    CreateCustomer_mutate isdecimal input w = (Return res, w')
    /\ (success res = true ->
        exists c,
          value res = Some c
          /\ db w' = with_customer c (db w)
          /\ as_input c = input
          /\ ~ In (c_id c) (List.map c_id (customers (db w)))
          /\ ~ In (c_email c) (List.map c_email (customers (db w)))
          /\ phone_rejected isdecimal (ci_phone input) = false).
Proof.
  destruct (CreateCustomer_cases isdecimal input w)
    as (res & w' & Hrun & [(Hs & _)|(c & Hres & Hd & Hin & Hid & Hfree & Hph)]);
    exists res, w'; (split; [exact Hrun|]); intros Hs'; [congruence|].
  exists c. rewrite Hres. repeat split; try assumption.
  - rewrite Hid. apply next_pk_fresh.
  - intros Hemail. apply existsb_email_In in Hemail.
    assert (E : c_email c = ci_email input) by (now rewrite <- Hin).
    rewrite E in Hemail. congruence.
Qed.


(** ** Looking rows up by id *)

Lemma get_by_id_find R (pk : R -> Z) rows k :
  NoDup (List.map pk rows) ->
  get_by_id pk rows k
  = match find (fun r => Z.eqb (pk r) k) rows with
    | Some r => Return r
    | None => Raise DoesNotExist
    end.
Proof.
  unfold get_by_id. induction rows as [|a l IH]; simpl; intros Hnd;
    [reflexivity|].
  inversion Hnd as [|x xs Hx Hxs]; subst.
  destruct (Z.eqb (pk a) k) eqn:E.
  - apply Z.eqb_eq in E.
    rewrite (@filter_all_false _ (fun r => Z.eqb (pk r) k) l); [reflexivity|].
    intros r Hr. apply Z.eqb_neq. intros E'. apply Hx.
    rewrite E, <- E'. now apply in_map.
  - now apply IH.
Qed.

Lemma filter_has_pk_find (l : list Order) k :
  (forall o, In o l -> o_pk o <> None) ->
  NoDup (flat_map (fun o => match o_pk o with Some j => [j] | None => [] end)
                  l) ->
  filter (has_pk k) l
  = match find (has_pk k) l with Some o => [o] | None => [] end.
Proof.
  induction l as [|a l IH]; simpl; intros Hpk Hnd; [reflexivity|].
  assert (Ha : exists j, o_pk a = Some j).
  { specialize (Hpk a (or_introl eq_refl)).
    destruct (o_pk a); [eauto | congruence]. }
  destruct Ha as (j & Hj). rewrite Hj in Hnd. simpl in Hnd.
  inversion Hnd as [|x xs Hx Hxs]; subst.
  destruct (has_pk k a) eqn:E.
  - unfold has_pk in E. rewrite Hj in E. apply Z.eqb_eq in E. subst j.
    rewrite (@filter_all_false _ (has_pk k) l); [reflexivity|].
    intros o Ho. destruct (has_pk k o) eqn:E'; [|reflexivity].
    exfalso. apply Hx. apply in_flat_map. exists o. split; [assumption|].
    unfold has_pk in E'. destruct (o_pk o); [|discriminate].
    apply Z.eqb_eq in E'. subst. now left.
  - apply IH; [|assumption]. intros o Ho. apply Hpk. now right.
Qed.

(** A lookup by id on a store without faults. *)
Lemma or_None_calm R (get : Z -> DB -> Outcome R) d c k :
  fst (or_None (k0 <- lift (to_pk (IdInt k)) ;; read (get k0)) (calm d c))
  = match get k d with
    | Return r => Return (Some r)
    | Raise DoesNotExist => Return None
    | Raise e => Raise e
    end.
Proof.
  unfold or_None, except_DoesNotExist, bind, lift, read, statement, calm.
  simpl. destruct (get k d) as [r|e]; [reflexivity|]. destruct e; reflexivity.
Qed.

(** An id that is no number: the handler of the resolver does not catch
    what the lookup raises. *)
Lemma or_None_malformed R (get : Z -> DB -> Outcome R) w :
  or_None (k0 <- lift (to_pk IdMalformed) ;; read (get k0)) w
  = (Raise ValueError, w).
Proof. reflexivity. Qed.

(** X8. The three queries by id, on a store with primary keys and without
    faults: each hands back the row of that id, and [None] when there is
    none.  An id that is no number is not caught: [ValueError] leaves the
    resolver, in any world, and the store is as it was. *)
Theorem by_id_finds_the_row d c k :
  customer_pk d -> product_pk d -> order_pk d ->
  (fst (resolve_customer_by_id (IdInt k) (calm d c))
   = Return (find (fun x => Z.eqb (c_id x) k) (customers d))
   /\ fst (resolve_product_by_id (IdInt k) (calm d c))
      = Return (find (fun x => Z.eqb (p_id x) k) (products d))
   /\ fst (resolve_order_by_id (IdInt k) (calm d c))
      = Return (find (has_pk k) (orders d)))
  /\ (forall w,
        resolve_customer_by_id IdMalformed w = (Raise ValueError, w)
        /\ resolve_product_by_id IdMalformed w = (Raise ValueError, w)
        /\ resolve_order_by_id IdMalformed w = (Raise ValueError, w)).
Proof.
  intros Hc Hp [Ho Ho']. split; [|intros w; repeat split].
  split; [|split].
  - unfold resolve_customer_by_id, Customer_get.
    rewrite (or_None_calm (fun k0 d0 => get_by_id c_id (customers d0) k0)).
    rewrite (@get_by_id_find _ c_id (customers d) k Hc).
    now destruct (find _ (customers d)).
  - unfold resolve_product_by_id, Product_get.
    rewrite (or_None_calm (fun k0 d0 => get_by_id p_id (products d0) k0)).
    rewrite (@get_by_id_find _ p_id (products d) k Hp).
    now destruct (find _ (products d)).
  - unfold resolve_order_by_id, Order_get.
    rewrite (or_None_calm
               (fun k0 d0 => match filter (has_pk k0) (orders d0) with
                             | [] => Raise DoesNotExist
                             | [o] => Return o
                             | _ => Raise MultipleObjectsReturned
                             end)).
    rewrite (@filter_has_pk_find (orders d) k Ho Ho').
    now destruct (find _ (orders d)).
Qed.

Lemma by_id_finds_the_row_witness :
  customer_pk built_store /\ product_pk built_store /\ order_pk built_store
  /\ fst (resolve_customer_by_id (IdInt 1) (calm built_store demo_clock))
     = Return (find (fun x => Z.eqb (c_id x) 1) (customers built_store)).
Proof.
  pose proof (reachable_consistent built_store_reachable) as H.
  split; [apply H|]. split; [apply H|]. split; [apply H|].
  exact (proj1 (proj1 (@by_id_finds_the_row built_store demo_clock 1
                         (ok_customer_pk H) (ok_product_pk H) (ok_order_pk H)))).
Defined.





Lemma prep_id_in_mem ids : forall ks k,
  prep_id_in ids = Return ks ->
  (In k ks <-> In (Some (IdInt k)) ids).
Proof.
  induction ids as [|j ids IH]; intros ks k H.
  - inversion H. simpl. tauto.
  - simpl in H. destruct j as [[n|]|]; simpl in H.
    + destruct (prep_id_in ids) as [ks0|] eqn:E; [|discriminate].
      inversion H; subst ks. simpl. rewrite (IH ks0 k eq_refl).
      split; intros [E'|H']; auto.
      * left. now subst.
      * left. now inversion E'.
    + discriminate.
    + rewrite (IH ks k H). simpl. split; [auto|].
      intros [E'|H']; [discriminate | assumption].
Qed.

(** X10. The products of a new order.  In a store where the product table
    has a primary key and the rows of the many-to-many table belong to
    orders, after a successful [createOrder]: [resolve_products] on the
    order handed back lists the products of the store that the ids of the
    request name, each once, and the total of the order is the sum of
    their prices. *)
Theorem new_order_lists_the_products_asked_for input w r w' c2 :
  product_pk (db w) -> links_have_orders (db w) ->
  CreateOrder_mutate input w = (Return r, w') ->
  success r = true ->
  exists order ps,
    value r = Some order
    /\ fst (resolve_products order (calm (db w') c2)) = Return ps
    /\ NoDup (List.map p_id ps)
    /\ (forall p, In p ps <->
                  In p (products (db w))
                  /\ In (Some (IdInt (p_id p))) (oi_product_ids input))
    /\ o_total_amount order = sum (List.map p_price ps).
Proof.
  intros Hpk Hfk Hrun Hs.
  destruct (@created_order_has_the_products_asked_for _ _ _ _ Hpk Hfk Hrun Hs)
    as (order & k & ks & Hv & Hk & Hprep & Hjoin & Htotal).
  exists order, (Product_id_in ks (db w)).
  split; [exact Hv|]. split.
  { unfold resolve_products, Order_products_all. rewrite Hk.
    unfold read, statement, calm. simpl. now rewrite Hjoin. }
  split; [now apply NoDup_map_filter|]. split; [|exact Htotal].
  intros p. unfold Product_id_in. rewrite filter_In, mem_In.
  now rewrite (@prep_id_in_mem _ ks (p_id p) Hprep).
Qed.

Lemma new_order_lists_the_products_witness :
  product_pk built_store /\ links_have_orders built_store
  /\ exists r w',
      CreateOrder_mutate one_bolt (calm built_store demo_clock)
      = (Return r, w')
      /\ success r = true
      /\ exists order ps,
          value r = Some order
          /\ fst (resolve_products order (calm (db w') demo_clock))
             = Return ps
          /\ NoDup (List.map p_id ps)
          /\ (forall p, In p ps <->
                 In p (products (db (calm built_store demo_clock)))
                 /\ In (Some (IdInt (p_id p))) (oi_product_ids one_bolt))
          /\ o_total_amount order = sum (List.map p_price ps).
Proof.
  pose proof (reachable_consistent built_store_reachable) as H.
  split; [apply H|]. split; [apply H|].
  eexists. eexists. split; [vm_compute; reflexivity|].
  split; [reflexivity|].
  apply (@new_order_lists_the_products_asked_for one_bolt
           (calm built_store demo_clock) _ _ demo_clock
           (ok_product_pk H) (ok_links_have_orders H));
    [vm_compute; reflexivity | reflexivity].
Defined.

(** ** Filters compose as a conjunction *)

Lemma filter_and A (p q : A -> bool) l :
  filter p (filter q l) = filter (fun x => q x && p x) l.
Proof.
  induction l as [|a l IH]; simpl; [reflexivity|].
  destruct (q a); simpl; [|assumption].
  destruct (p a); simpl; now rewrite IH.
Qed.

Lemma filter_true A (l : list A) : filter (fun _ => true) l = l.
Proof. induction l as [|a l IH]; simpl; [reflexivity | now rewrite IH]. Qed.

Lemma rows_when_given V R (v : option V) (cond : V -> R -> bool) qs :
  rows (when_given v (fun x => where_ (cond x)) qs)
  = filter (fun r => asks v (fun x => cond x r)) (rows qs).
Proof.
  destruct v as [x|]; simpl; [reflexivity | now rewrite filter_true].
Qed.

Lemma rows_when_nonempty R (v : option str) (cond : str -> R -> bool) qs :
  rows (when_nonempty v (fun x => where_ (cond x)) qs)
  = filter (fun r => asks_text v (fun x => cond x r)) (rows qs).
Proof.
  destruct v as [[|c s]|]; simpl; try reflexivity; now rewrite filter_true.
Qed.


Lemma rows_phone_pattern casefold v qs :
  rows (when_nonempty v (filter_phone_pattern casefold) qs)
  = filter (fun c => asks_text v (fun x => on_phone (icontains casefold x) c))
           (rows qs).
Proof.
  destruct v as [[|c s]|]; simpl; try reflexivity; now rewrite filter_true.
Qed.




(** ** Queries on orders *)

Section OrderQueries.

Variable casefold : char -> char.









Lemma never_twice_where R (cond : R -> bool) qs :
  never_twice qs -> never_twice (where_ cond qs).
Proof.
  intros [H|H]; [now left | right]. simpl. now apply NoDup_filter.
Qed.

Lemma join_at_most_one R S (related : R -> list S) l :
  (forall r, (List.length (related r) <= 1)%nat) ->
  flat_map (fun r => List.map (fun _ => r) (related r)) l
  = filter (fun r => match related r with [] => false | _ => true end) l.
Proof.
  intros H. induction l as [|a l IH]; simpl; [reflexivity|].
  specialize (H a). destruct (related a) as [|x [|y t]]; simpl in *.
  - assumption.
  - now rewrite IH.
  - lia.
Qed.

Lemma never_twice_join R S (related : R -> list S) g qs :
  (forall r, (List.length (related r) <= 1)%nat) ->
  never_twice qs ->
  never_twice (join (fun r => filter g (related r)) qs).
Proof.
  intros Hone [H|H]; [now left | right]. simpl.
  rewrite join_at_most_one.
  - now apply NoDup_filter.
  - intros r. specialize (Hone r).
    pose proof (filter_length_le g (related r)). lia.
Qed.

Lemma at_most_one_row R (pk : R -> Z) l k :
  NoDup (List.map pk l) ->
  (List.length (filter (fun r => Z.eqb (pk r) k) l) <= 1)%nat.
Proof.
  induction l as [|a l IH]; simpl; intros Hnd; [lia|].
  inversion Hnd as [|x xs Hx Hxs]; subst.
  destruct (Z.eqb (pk a) k) eqn:E; [|now apply IH].
  apply Z.eqb_eq in E.
  rewrite (@filter_all_false _ (fun r => Z.eqb (pk r) k) l); [simpl; lia|].
  intros r Hr. apply Z.eqb_neq. intros E'. apply Hx.
  rewrite E, <- E'. now apply in_map.
Qed.

Lemma never_twice_given V R (v : option V)
      (F : V -> QuerySet R -> QuerySet R) qs :
  (forall x q, never_twice q -> never_twice (F x q)) ->
  never_twice qs -> never_twice (when_given v F qs).
Proof. intros H Hq. destruct v; simpl; auto. Qed.

Lemma never_twice_nonempty R (v : option str)
      (F : str -> QuerySet R -> QuerySet R) qs :
  (forall x q, never_twice q -> never_twice (F x q)) ->
  never_twice qs -> never_twice (when_nonempty v F qs).
Proof. intros H Hq. destruct v as [[|c s]|]; simpl; auto. Qed.

Lemma never_twice_product_id d k qs :
  never_twice qs -> never_twice (filter_by_product_id d k qs).
Proof.
  intros H. unfold filter_by_product_id.
  destruct (negb (Z.eqb k 0)); [now left | assumption].
Qed.

Lemma never_twice_evaluate (qs : QuerySet Order) :
  never_twice qs -> NoDup (evaluate Order_eq_dec qs).
Proof.
  intros [H|H]; unfold evaluate.
  - rewrite H. apply NoDup_nodup.
  - destruct (is_distinct qs); [apply NoDup_nodup | assumption].
Qed.

Lemma order_pk_NoDup d : order_pk d -> NoDup (orders d).
Proof.
  intros [Hpk Hnd]. unfold order_ids in Hnd.
  induction (orders d) as [|a l IH]; [constructor|].
  assert (Ha : exists j, o_pk a = Some j).
  { specialize (Hpk a (or_introl eq_refl)).
    destruct (o_pk a); [eauto | congruence]. }
  destruct Ha as (j & Hj). simpl in Hnd. rewrite Hj in Hnd. simpl in Hnd.
  inversion Hnd as [|x xs Hx Hxs]; subst. constructor.
  - intros Hin. apply Hx. apply in_flat_map. exists a.
    split; [assumption|]. rewrite Hj. now left.
  - apply IH; [|assumption]. intros o Ho. apply Hpk. now right.
Qed.

(** X14. In a store with primary keys on customers and orders, a query on
    orders that does not use [product_name] yields no order twice: the
    filters on the customer join one row at most, and [product_id] asks for
    distinct rows. *)
Theorem orders_query_without_product_name_never_repeats f d :
  customer_pk d -> order_pk d -> no_product_name f ->
  NoDup (query_orders casefold f d).
Proof.
  intros Hc Ho Hname. unfold query_orders, OrderFilter_qs.
  apply never_twice_evaluate.
  apply never_twice_given; [intros; now apply never_twice_product_id|].
  assert (Hskip : forall qs,
             when_nonempty (of_product_name f)
                           (filter_product_name casefold d) qs = qs).
  { intros qs. destruct Hname as [-> | ->]; reflexivity. }
  rewrite Hskip.
  do 2 (apply never_twice_nonempty;
        [intros x q Hq;
         apply (@never_twice_join _ _ (customer_of d)); [|exact Hq];
         intros r; apply at_most_one_row; exact Hc|]).
  repeat (apply never_twice_given;
          [intros; now apply never_twice_where|]).
  right. simpl. now apply order_pk_NoDup.
Qed.

(** X15. The value of [product_id]: zero asks nothing, the query is the
    one without [product_id]; any other value makes the query distinct, and
    it yields no order twice, whatever the other filters. *)
Theorem product_id_zero_and_distinct f d :
  query_orders casefold (with_product_id (Some 0) f) d
  = query_orders casefold (with_product_id None f) d
  /\ (forall k, k <> 0 ->
        NoDup (query_orders casefold (with_product_id (Some k) f) d)).
Proof.
  split; [reflexivity|].
  intros k Hk.
  now apply (@product_id_filter_is_distinct casefold
               (with_product_id (Some k) f) d k).
Qed.

End OrderQueries.

Lemma orders_query_never_repeats_witness :
  customer_pk store_with_order /\ order_pk store_with_order
  /\ no_product_name (by_customer_name (lit "an"))
  /\ NoDup (query_orders ascii_lower (by_customer_name (lit "an"))
                         store_with_order).
Proof.
  assert (Hc : customer_pk store_with_order).
  { unfold customer_pk. vm_compute. repeat constructor. intros []. }
  assert (Ho : order_pk store_with_order).
  { split.
    - intros o Ho. vm_compute in Ho. destruct Ho as [<-|[]]. discriminate.
    - vm_compute. repeat constructor. intros []. }
  assert (Hn : no_product_name (by_customer_name (lit "an")))
    by (left; reflexivity).
  split; [exact Hc|]. split; [exact Ho|]. split; [exact Hn|].
  exact (@orders_query_without_product_name_never_repeats ascii_lower
           (by_customer_name (lit "an")) store_with_order Hc Ho Hn).
Defined.

(** ** When [createOrder] accepts *)



















(** ** The phones that pass *)

Lemma at_eol_ends_line tail : at_eol tail = true <-> ends_line tail.
Proof.
  unfold ends_line. destruct tail as [|x [|y t]]; simpl.
  - intuition discriminate.
  - rewrite N.eqb_eq. split; [intros ->; now right|].
    intros [H|H]; [discriminate | now inversion H].
  - split; [discriminate | intros [H|H]; discriminate].
Qed.

(** X18. The phones that the two customer mutations let pass, written out
    without the pattern: the empty phone; a plus sign followed by ten to
    thirteen digits; three digits, a hyphen, three digits, a hyphen and
    four digits; the last two also with one newline at the end, which [$]
    lets through. *)
Theorem accepted_phones isdecimal s :
  phone_rejected isdecimal (Some s) = false
  <-> s = []
      \/ (exists ds tail,
            s = plus_sign :: ds ++ tail
            /\ forallb isdecimal ds = true
            /\ (10 <= List.length ds <= 13)%nat
            /\ ends_line tail)
      \/ (exists d1 d2 d3 tail,
            s = d1 ++ hyphen :: d2 ++ hyphen :: d3 ++ tail
            /\ List.length d1 = 3%nat /\ List.length d2 = 3%nat
            /\ List.length d3 = 4%nat
            /\ forallb isdecimal (d1 ++ d2 ++ d3) = true
            /\ ends_line tail).
Proof.
  rewrite phone_rejected_fits.
  destruct s as [|x s].
  { split; [intros _; now left | reflexivity]. }
  rewrite negb_false_iff. unfold fits_a_format. rewrite orb_true_iff.
  rewrite (@international_shape isdecimal (x :: s)).
  rewrite (@dashed_shape isdecimal (x :: s)).
  split.
  - intros [(ds & tail & E & Hd & Hl & He)|(d1 & d2 & d3 & tail & E & H1 & H2
                                            & H3 & Hd & He)];
      apply at_eol_ends_line in He; right; [left | right].
    + exists ds, tail. auto.
    + exists d1, d2, d3, tail. repeat split; assumption.
  - intros [E|[(ds & tail & E & Hd & Hl & He)|(d1 & d2 & d3 & tail & E & H1
                                               & H2 & H3 & Hd & He)]];
      [discriminate | left | right]; apply at_eol_ends_line in He.
    + exists ds, tail. auto.
    + exists d1, d2, d3, tail. repeat split; assumption.
Qed.

(** ** An email is taken once *)

Lemma CreateCustomer_taken isdecimal input d c :
  existsb (fun cu => str_eqb (c_email cu) (ci_email input)) (customers d)
  = true ->
  CreateCustomer_mutate isdecimal input (calm d c)
  = (Return (failure msg_email_exists), calm d c).
Proof.
  intros Htaken.
  unfold CreateCustomer_mutate, try_except, bind, Customer_email_exists,
    read, statement, calm.
  simpl. rewrite Htaken. reflexivity.
Qed.

(** X19. An email is taken once.  After a successful [createCustomer], in
    any world, a second request with the same email, on the store as the
    first left it, is refused with [Email already exists], whatever its
    name and phone, and leaves the store as it was. *)
Theorem created_email_is_refused_next_time isdecimal input w c2 :
  exists res w',
    CreateCustomer_mutate isdecimal input w = (Return res, w')
    /\ (success res = true ->
        forall again,
          ci_email again = ci_email input ->
          CreateCustomer_mutate isdecimal again (calm (db w') c2)
          = (Return (failure msg_email_exists), calm (db w') c2)).
Proof.
  destruct (CreateCustomer_cases isdecimal input w)
    as (res & w' & Hrun & [(Hs & _)|(c & Hres & Hdb & Hin & _)]).
  - exists res, w'. split; [assumption|]. congruence.
  - exists res, w'. split; [assumption|]. intros _ again Hsame.
    apply CreateCustomer_taken. rewrite Hdb. unfold with_customer. simpl.
    rewrite existsb_app. simpl. rewrite Hsame.
    assert (E : c_email c = ci_email input) by (rewrite <- Hin; reflexivity).
    rewrite E.
    assert (Hrefl : str_eqb (ci_email input) (ci_email input) = true)
      by now apply str_eqb_eq.
    rewrite Hrefl. now rewrite orb_true_r.
Qed.

(** ** The bulk creation as a transaction *)

Lemma with_customers_nil d : with_customers [] d = d.
Proof. destruct d. unfold with_customers. simpl. now rewrite app_nil_r. Qed.

Lemma with_customers_snoc cs c d :
  with_customers (cs ++ [c]) d = with_customer c (with_customers cs d).
Proof.
  unfold with_customers, with_customer. simpl. now rewrite app_assoc.
Qed.

Lemma bulk_loop_adds isdecimal : forall input i created errors w,
  exists cs errors' w',
    bulk_loop isdecimal i input (created, errors) w
    = (Return (created ++ cs, errors'), w')
    /\ db w' = with_customers cs (db w).
Proof.
  induction input as [|x rest IH]; intros i created errors w.
  - exists [], errors, w. simpl. unfold ret.
    now rewrite app_nil_r, with_customers_nil.
  - cbn [bulk_loop]. unfold bind at 1.
    destruct (bulk_item_cases isdecimal i x created errors w)
      as (c1 & e1 & w1 & -> & H1).
    destruct (IH (S i) c1 e1 w1) as (cs & e2 & w2 & -> & Hd2).
    destruct H1 as [[-> Hd1]|(c & -> & Hd1)].
    + exists cs, e2, w2. split; [reflexivity | congruence].
    + exists (c :: cs), e2, w2. split.
      * now rewrite <- app_assoc.
      * rewrite Hd2, Hd1. unfold with_customers, with_customer. simpl.
        now rewrite <- app_assoc.
Qed.

(** X20. The bulk creation is all or nothing, whatever the input and the
    faults of the store: afterwards the store is either as it was before,
    or it has gained the customers that the result lists, in that order,
    and nothing else. *)
Theorem bulk_create_is_all_or_nothing isdecimal input (w : World) :
  exists res w',
    BulkCreateCustomers_mutate isdecimal input w = (Return res, w')
    /\ (db w' = db w \/ db w' = with_customers (b_customers res) (db w)).
Proof.
  unfold BulkCreateCustomers_mutate, try_except, bind, atomic.
  destruct (bulk_loop_adds isdecimal input 0 [] [] (set_atomic true false w))
    as (cs & es & w1 & -> & Hd).
  destruct (needs_rollback w1).
  { eexists. eexists. split; [reflexivity|]. left. reflexivity. }
  destruct (hd false (faults w1)).
  { eexists. eexists. split; [reflexivity|]. left. reflexivity. }
  eexists. eexists. split; [reflexivity|]. right. simpl. exact Hd.
Qed.

(** ** The bulk creation, item by item *)

Lemma item_by_item isdecimal i x created errors d c n :
  exists r l errors' d' n',
    bulk_item isdecimal i x (created, errors) (mkWorld d [] c n true false)
    = (Return (created ++ l, errors'), mkWorld d' [] c n' true false)
    /\ CreateCustomer_mutate isdecimal x (mkWorld d [] c n false false)
       = (Return r, mkWorld d' [] c n' false false)
    /\ l = match value r with Some cu => [cu] | None => [] end.
Proof.
  unfold bulk_item, CreateCustomer_mutate, try_except, bind,
    Customer_email_exists, read, statement.
  unfold set_db, set_faults. simpl.
  destruct (existsb (fun c0 => str_eqb (c_email c0) (ci_email x)) (customers d))
    eqn:Etaken.
  { do 5 eexists. split; [|split; [reflexivity|]]; simpl;
      [now rewrite app_nil_r | reflexivity]. }
  destruct (phone_rejected isdecimal (ci_phone x)).
  { do 5 eexists. split; [|split; [reflexivity|]]; simpl;
      [now rewrite app_nil_r | reflexivity]. }
  unfold Customer_create, bind, now, statement.
  unfold set_db, set_faults, set_tick. simpl. rewrite Etaken.
  do 5 eexists. split; [|split; [reflexivity|]]; simpl; reflexivity.
Qed.

Lemma loop_one_by_one isdecimal c : forall input i created errors d n,
  exists cs errors' d' n',
    bulk_loop isdecimal i input (created, errors)
              (mkWorld d [] c n true false)
    = (Return (created ++ cs, errors'), mkWorld d' [] c n' true false)
    /\ one_by_one isdecimal input (mkWorld d [] c n false false)
       = (Return cs, mkWorld d' [] c n' false false).
Proof.
  induction input as [|x rest IH]; intros i created errors d n.
  - exists [], errors, d, n. simpl. unfold ret. now rewrite app_nil_r.
  - destruct (item_by_item isdecimal i x created errors d c n)
      as (r & l & e1 & d1 & n1 & Hitem & Hcreate & Hl).
    destruct (IH (S i) (created ++ l) e1 d1 n1)
      as (cs & e2 & d2 & n2 & Hloop & Hone).
    exists (l ++ cs), e2, d2, n2. split.
    + cbn [bulk_loop]. unfold bind at 1. rewrite Hitem, Hloop.
      now rewrite app_assoc.
    + cbn [one_by_one]. unfold bind at 1. rewrite Hcreate.
      unfold bind at 1. rewrite Hone.
      unfold ret. subst l. destruct (value r); reflexivity.
Qed.

(** X21. With no fault of the store, the bulk creation does what
    [createCustomer] does when it is run on the items one after the other:
    the same customers are created, in the same order, and the world is
    left the same. *)
Theorem bulk_create_is_createCustomer_one_by_one isdecimal input d c :
  exists res w',
    BulkCreateCustomers_mutate isdecimal input (calm d c) = (Return res, w')
    /\ one_by_one isdecimal input (calm d c)
       = (Return (b_customers res), w').
Proof.
  destruct (loop_one_by_one isdecimal c input 0 [] [] d 0)
    as (cs & es & d' & n' & Hloop & Hone).
  unfold BulkCreateCustomers_mutate, try_except, bind, atomic, calm.
  unfold set_atomic. simpl. simpl in Hloop. rewrite Hloop. simpl.
  eexists. eexists. split; [reflexivity|]. simpl. exact Hone.
Qed.

(** ** [Order.update_total] *)

Lemma order_ids_has_pk k d :
  In k (order_ids d) <-> existsb (has_pk k) (orders d) = true.
Proof.
  unfold order_ids. rewrite in_flat_map, existsb_exists.
  split; intros (o & Ho & H); exists o; (split; [assumption|]);
    unfold has_pk in *; destruct (o_pk o) as [j|].
  - destruct H as [->|[]]. apply Z.eqb_refl.
  - contradiction.
  - apply Z.eqb_eq in H. subst. now left.
  - discriminate.
Qed.

(** X22. [Order.update_total] on an order that has a row in the store, run
    with no fault: the row of the order is rewritten, the other rows and the
    other tables stay; the total written is the sum of the prices of the
    products joined to the order, but for the key 0, which [save] takes for
    no key ([not self.pk]) and whose total it sets to zero.  On an instance
    that was never saved, [update_total] raises [ValueError] in any world
    and changes nothing. *)
Theorem update_total_stores_the_sum (o : Order) d c :
  (forall k,
      o_pk o = Some k -> In k (order_ids d) ->
      exists o' w',
        update_total o (calm d c) = (Return o', w')
        /\ o_pk o' = Some k
        /\ o_total_amount o'
           = (if Z.eqb k 0 then 0
              else sum (List.map p_price (products_of k d)))
        /\ orders (db w')
           = List.map (fun x => if has_pk k x then o' else x) (orders d)
        /\ customers (db w') = customers d
        /\ products (db w') = products d
        /\ order_products (db w') = order_products d)
  /\ (o_pk o = None ->
      forall w, update_total o w = (Raise ValueError, w)).
Proof.
  split.
  - intros k Hk Hin. apply order_ids_has_pk in Hin.
    destruct o as [pk cust tot od ca ua]. simpl in Hk. subst pk.
    unfold update_total, calculate_total, Order_products_all, Order_save,
      Model_save, bind, read, statement, now, ret, calm.
    unfold set_db, set_faults, set_tick. simpl.
    destruct (Z.eqb k 0) eqn:E0; simpl; rewrite Hin; simpl;
      do 2 eexists; (split; [reflexivity|]); simpl;
      repeat split; reflexivity.
  - intros Hnone w. unfold update_total, calculate_total, Order_products_all,
      bind, raise. now rewrite Hnone.
Qed.

(** ** What [createProduct] decides *)

(** X23. What [createProduct] decides, run with no fault.  The price is
    looked at first: a price at or below zero is refused with
    [Price must be positive], whatever the stock; then a negative stock is
    refused with [Stock cannot be negative]; a request with a positive
    price and a stock that is absent or not negative is accepted. *)
Theorem createProduct_decides input d c :
  let stock := match pi_stock input with Some n => n | None => 0 end in
  forall q, pi_price input = Finite q ->
    ((q <= 0)%Q ->
     fst (CreateProduct_mutate input (calm d c))
     = Return (failure msg_price_positive))
    /\ ((0 < q)%Q -> stock < 0 ->
        fst (CreateProduct_mutate input (calm d c))
        = Return (failure msg_stock_negative))
    /\ ((0 < q)%Q -> 0 <= stock ->
        success_of (CreateProduct_mutate input (calm d c)) = true).
Proof.
  intros stock q Hq. subst stock.
  unfold success_of, CreateProduct_mutate, try_except. rewrite Hq.
  unfold float_le_0.
  repeat split.
  - intros Hle. apply Qle_bool_iff in Hle. now rewrite Hle.
  - intros Hlt Hstock.
    destruct (Qle_bool q 0) eqn:E;
      [apply Qle_bool_iff in E; exfalso; now apply (Qlt_not_le _ _ Hlt)|].
    apply Z.ltb_lt in Hstock. now rewrite Hstock.
  - intros Hlt Hstock.
    destruct (Qle_bool q 0) eqn:E;
      [apply Qle_bool_iff in E; exfalso; now apply (Qlt_not_le _ _ Hlt)|].
    apply Z.ltb_ge in Hstock. rewrite Hstock.
    unfold bind, lift, decimal_of_float, Product_create, bind, now,
      statement, calm. simpl. reflexivity.
Qed.

Lemma createProduct_decides_witness :
  pi_price bolt = Finite (3 # 4)
  /\ success_of (CreateProduct_mutate bolt (calm demo_db demo_clock)) = true.
Proof.
  split; [reflexivity|].
  refine (proj2 (proj2 (@createProduct_decides bolt demo_db demo_clock
                          (3 # 4) eq_refl)) _ _).
  - reflexivity.
  - simpl. lia.
Defined.

(** ** Filters of [CustomerFilter] that come twice *)

(** X24. Three filters of [CustomerFilter] come twice.  The filters [name]
    and [email] declared in the class replace the exact matches that
    [Meta.fields] asks for, and are the same as [name__icontains] and
    [email__icontains]; [phone_pattern] is the same as [phone__icontains].
    So a query does not change when the values of the two filters of a pair
    change places. *)
Theorem customer_filter_twins casefold f d :
  query_customers casefold (swap_twins f) d = query_customers casefold f d.
Proof.
  unfold query_customers, CustomerFilter_qs.
  rewrite !rows_phone_pattern.
  rewrite !rows_when_given, !rows_when_nonempty.
  cbn [rows objects_all].
  rewrite !filter_and.
  apply filter_ext. intros cu. destruct f; cbn.
  repeat match goal with
         | |- context [asks_text ?v ?c] =>
             let b := fresh "b" in
             generalize (asks_text v c); intros b
         | |- context [asks ?v ?c] =>
             let b := fresh "b" in
             generalize (asks v c); intros b
         end.
  btauto.
Qed.
